(** * BM25 retrieval driver (bm25/main.py): a shallow embedding

    The script has three parts: a corpus loader ([read_pdf], [load_data]),
    a retriever ([BM25_retrieve]) and a driver ([main]).  Python values are
    modelled as follows.

    - [str] is a list of Unicode code points ([N]); [strip], [endswith],
      [replace] and [os.path.join] are written out over it.
    - a [dict] is an association list in insertion order whose keys are
      pairwise distinct ([dict_wf]); [items] walks it front to back.
    - code that can raise lives in the [outcome] monad; [try_except] is the
      [try ... except Exception] block.
    - the file system, the PDF library, the segmenter (jieba) and the ranker
      (rank_bm25) are outside the script: a record of lookups stands for
      the first two, variables of the development for the others.
    - the JSON inputs are taken at their documented types: a question is
      a record with an integer qid, two strings and a list of integer
      candidate ids.
    - [print] calls write to stdout only and are left out; the worker
      pool of [load_data] returns its results in the order of the file
      list, so it is a plain map. *)

From Stdlib Require Import List ZArith NArith Bool Lia Permutation String Ascii.
Import ListNotations.

Set Implicit Arguments.

(** ** Python strings *)

Module PyStr.

Definition char := N.
Definition str := list char.

(** A literal of the script, as code points. *)
Definition lit (s : string) : str :=
  List.map N_of_ascii (list_ascii_of_string s).

Definition str_eqb (a b : str) : bool :=
  if list_eq_dec N.eq_dec a b then true else false.

(** The characters [str.strip()] removes: CPython's [Py_UNICODE_ISSPACE]. *)
Definition isspace (c : char) : bool :=
  ((9 <=? c) && (c <=? 13)        (* \t \n \v \f \r *)
   || (28 <=? c) && (c <=? 32)    (* FS GS RS US and the space *)
   || (c =? 133) || (c =? 160)    (* NEL, no-break space *)
   || (c =? 5760)                 (* U+1680 *)
   || (8192 <=? c) && (c <=? 8202) (* U+2000 .. U+200A *)
   || (c =? 8232) || (c =? 8233)  (* U+2028, U+2029 *)
   || (c =? 8239) || (c =? 8287)  (* U+202F, U+205F *)
   || (c =? 12288))%N.            (* U+3000 *)

Fixpoint lstrip (s : str) : str :=
  match s with
  | [] => []
  | c :: s' => if isspace c then lstrip s' else s
  end.

Definition rstrip (s : str) : str := rev (lstrip (rev s)).

(** [s.strip()] *)
Definition strip (s : str) : str := rstrip (lstrip s).

(** Truth value of a string: non-empty. *)
Definition truthy (s : str) : bool :=
  match s with [] => false | _ :: _ => true end.

(** "blank": empty or whitespace only. *)
Definition blank (s : str) : bool := forallb isspace s.

Fixpoint startswith (s prefix : str) : bool :=
  match prefix, s with
  | [], _ => true
  | _ :: _, [] => false
  | p :: prefix', c :: s' => (c =? p)%N && startswith s' prefix'
  end.

(** [s.endswith(suffix)] *)
Definition endswith (s suffix : str) : bool :=
  startswith (rev s) (rev suffix).

(** [s.replace(old, new)] for a non-empty [old]: occurrences are replaced
    left to right and do not overlap.  [skip] counts the characters of the
    occurrence just replaced that are still to be dropped. *)
Fixpoint replace_from (old new : str) (skip : nat) (s : str) : str :=
  match s with
  | [] => []
  | c :: s' =>
      match skip with
      | S k => replace_from old new k s'
      | O => if startswith s old
             then new ++ replace_from old new (List.length old - 1) s'
             else c :: replace_from old new 0 s'
      end
  end.

Definition replace (s old new : str) : str := replace_from old new 0 s.

(** [os.path.join(a, b)] on POSIX. *)
Definition path_join (a b : str) : str :=
  if startswith b (lit "/") then b
  else if negb (truthy a) || endswith a (lit "/") then a ++ b
  else a ++ lit "/" ++ b.

(** [value in top_n] for a list of strings. *)
Definition str_in (s : str) (l : list str) : bool := existsb (str_eqb s) l.

End PyStr.
Import PyStr.

(** ** Exceptions *)

(** The subclasses of [Exception] the script distinguishes: [load_data]
    has a handler for [FileNotFoundError] and one for everything else. *)
Inductive exn : Type :=
| FileNotFoundError
| ValueError
| OtherException.

Inductive outcome (A : Type) : Type :=
| Returns (a : A)
| Raises (e : exn).

Arguments Returns {A} a.
Arguments Raises {A} e.

Definition bind {A B : Type} (c : outcome A) (k : A -> outcome B) : outcome B :=
  match c with
  | Returns a => k a
  | Raises e => Raises e
  end.

Declare Scope outcome_scope.
Delimit Scope outcome_scope with outcome.
Notation "x <- c ;; k" := (bind c (fun x => k))
  (at level 61, c at next level, right associativity) : outcome_scope.
Local Open Scope outcome_scope.

(** [try: body  except Exception as e: handler e] *)
Definition try_except {A : Type} (body : outcome A) (handler : exn -> outcome A)
  : outcome A :=
  match body with
  | Returns a => Returns a
  | Raises e => handler e
  end.

(** Evaluating a list of calls in order; the first exception ends it. *)
Fixpoint map_outcome {A B : Type} (f : A -> outcome B) (l : list A)
  : outcome (list B) :=
  match l with
  | [] => Returns []
  | a :: l' => b <- f a ;; bs <- map_outcome f l' ;; Returns (b :: bs)
  end.

(** ** Python dictionaries with integer keys *)

Section Dict.
Variable V : Type.

Definition dict := list (Z * V).

Definition dict_empty : dict := [].

(** [d.items()] and the keys, in insertion order. *)
Definition dict_items (d : dict) : list (Z * V) := d.
Definition dict_keys (d : dict) : list Z := map fst d.

Definition dict_wf (d : dict) : Prop := NoDup (dict_keys d).

Fixpoint dict_lookup (d : dict) (k : Z) : option V :=
  match d with
  | [] => None
  | (k', v) :: d' => if Z.eqb k k' then Some v else dict_lookup d' k
  end.

(** [d.get(k, default)] *)
Definition dict_get (d : dict) (k : Z) (default : V) : V :=
  match dict_lookup d k with
  | Some v => v
  | None => default
  end.

(** [d[k] = v]: an existing key keeps its place, a new one goes last. *)
Fixpoint dict_set (d : dict) (k : Z) (v : V) : dict :=
  match d with
  | [] => [(k, v)]
  | (k', v') :: d' =>
      if Z.eqb k k' then (k, v) :: d' else (k', v') :: dict_set d' k v
  end.

Definition set_pair (d : dict) (kv : Z * V) : dict :=
  dict_set d (fst kv) (snd kv).

(** [{key: value for key, value in pairs}] *)
Definition dict_of_pairs (pairs : list (Z * V)) : dict :=
  fold_left set_pair pairs dict_empty.
End Dict.

Arguments dict_empty {V}.
Arguments set_pair {V} d kv.

(** [k in source] for a list of integers. *)
Definition int_in (k : Z) (l : list Z) : bool := existsb (Z.eqb k) l.

(** ** The world outside the script *)

(** A page of an opened PDF: [page.extract_text()] gives [None], a string,
    or raises. *)
Record page : Type := { extract_text : outcome (option str) }.

Record question : Type := {
  qid : Z;
  category : str;
  query : str;
  source : list Z
}.

(** An entry [{"qid": ..., "retrieve": ...}] of the answers list. *)
Record answer : Type := {
  answer_qid : Z;
  retrieve : Z
}.

Section World.
(** The values of the FAQ file and Python's [str()] on them. *)
Variable JsonValue : Type.
Variable py_str : JsonValue -> str.

(** What the script reads.  [listdir] is [os.listdir]; [pdf_open] is
    [pdfplumber.open(path)] with its [pages]; the two JSON files are
    given parsed, [None] standing for [FileNotFoundError]: the question
    file as the list under ["questions"], the FAQ file as its key/value
    pairs with the keys still strings. *)
Record filesystem : Type := {
  listdir : str -> outcome (list str);
  pdf_open : str -> outcome (list page);
  questions_file : str -> option (list question);
  faq_file : str -> option (list (str * JsonValue))
}.

(** Python's [int()] on a string; [None] is [ValueError]. *)
Variable py_int : str -> option Z.

Definition int_of (s : str) : outcome Z :=
  match py_int s with
  | Some z => Returns z
  | None => Raises ValueError
  end.

(** The segmenter, [jieba.cut_for_search]. *)
Variable cut_for_search : str -> list str.

(** The ranker: for [BM25Okapi(corpus)] and a tokenized query, the
    document indices by descending score,
    [np.argsort(bm25.get_scores(query))[::-1]]. *)
Variable bm25_argsort : list (list str) -> list str -> list nat.

(** *** 2. Corpus loader *)

(** [page.extract_text() or ''] *)
Definition text_or_empty (p : page) : outcome str :=
  t <- extract_text p ;;
  Returns (match t with
           | Some s => if truthy s then s else []
           | None => []
           end).

Definition read_pdf (fs : filesystem) (pdf_loc : str) : outcome str :=
  try_except
    (pages <- pdf_open fs pdf_loc ;;
     texts <- map_outcome text_or_empty pages ;;
     Returns (List.concat texts))
    (fun _ => Returns []).

(** [int(f.replace('.pdf', ''))] *)
Definition file_id (f : str) : outcome Z :=
  int_of (replace f (lit ".pdf") []).

Definition pdf_files (names : list str) : list str :=
  filter (fun f => endswith f (lit ".pdf")) names.

(** The worker of [executor.map]; results come back in the order of
    [file_list], and a worker's exception is raised when its result is
    reached. *)
Definition load_one (fs : filesystem) (source_path f : str)
  : outcome (Z * str) :=
  k <- file_id f ;;
  v <- read_pdf fs (path_join source_path f) ;;
  Returns (k, v).

Definition load_data (fs : filesystem) (source_path : str)
  : outcome (dict str) :=
  try_except
    (names <- listdir fs source_path ;;
     let file_list := pdf_files names in
     results <- map_outcome (load_one fs source_path) file_list ;;
     Returns (dict_of_pairs results))
    (fun e =>
       match e with
       | FileNotFoundError => Returns dict_empty
       | _ => Returns dict_empty
       end).

(** *** 3. Retriever *)

(** [bm25.get_top_n(query, documents, n)]:
    [[documents[i] for i in argsort[:n]]].  The library asserts that
    [documents] is as long as the indexed corpus, so every index is in
    range; the default of [nth] is never used. *)
Definition get_top_n (tokenized_corpus : list (list str))
    (tokenized_query : list str) (documents : list str) (n : nat)
  : list str :=
  map (fun i => nth i documents [])
      (firstn n (bm25_argsort tokenized_corpus tokenized_query)).

(** The candidate texts that are present and not blank. *)
Definition filtered_corpus (source : list Z) (corpus_dict : dict str)
  : list str :=
  filter (fun doc => truthy (strip doc))
         (map (fun f => dict_get corpus_dict f []) source).

Definition top_1 (qs : str) (docs : list str) : list str :=
  get_top_n (map cut_for_search docs) (cut_for_search qs) docs 1.

Definition BM25_retrieve (qs : str) (source : list Z)
    (corpus_dict : dict str) : option Z :=
  let filtered := filtered_corpus source corpus_dict in
  match filtered with
  | [] => None
  | _ :: _ =>
      let top_n := top_1 qs filtered in
      let res := map fst (filter (fun kv => str_in (snd kv) top_n)
                                 (dict_items corpus_dict)) in
      match res with
      | r :: _ => Some r
      | [] => None
      end
  end.

(** *** 4. Driver *)

(** [{int(k): v for k, v in json.load(f).items()}], and [{}] when the
    FAQ file is missing. *)
Definition load_faq (fs : filesystem) (source_path : str)
  : outcome (dict JsonValue) :=
  let faq_path := path_join (path_join source_path (lit "faq"))
                            (lit "pid_map_content.json") in
  match faq_file fs faq_path with
  | None => Returns dict_empty
  | Some kvs =>
      pairs <- map_outcome
                 (fun kv => k <- int_of (fst kv) ;; Returns (k, snd kv)) kvs ;;
      Returns (dict_of_pairs pairs)
  end.

(** [{k: str(v) for k, v in key_to_source_dict.items() if k in source}] *)
Definition corpus_dict_faq (key_to_source_dict : dict JsonValue)
    (source : list Z) : dict str :=
  dict_of_pairs
    (map (fun kv => (fst kv, py_str (snd kv)))
         (filter (fun kv => int_in (fst kv) source)
                 (dict_items key_to_source_dict))).

(** What the [if / elif / else] on the category leaves in [retrieved]:
    [Skipped] is the [continue] of the last branch. *)
Inductive dispatched : Type :=
| Skipped
| Retrieved (r : option Z).

Section Loop.
Variable corpus_dict_insurance corpus_dict_finance : dict str.
Variable key_to_source_dict : dict JsonValue.

Definition dispatch (q_dict : question) : dispatched :=
  if str_eqb (category q_dict) (lit "finance") then
    Retrieved (BM25_retrieve (query q_dict) (source q_dict)
                             corpus_dict_finance)
  else if str_eqb (category q_dict) (lit "insurance") then
    Retrieved (BM25_retrieve (query q_dict) (source q_dict)
                             corpus_dict_insurance)
  else if str_eqb (category q_dict) (lit "faq") then
    Retrieved (BM25_retrieve (query q_dict) (source q_dict)
                 (corpus_dict_faq key_to_source_dict (source q_dict)))
  else Skipped.

(** One turn of the [for] loop on [answer_dict['answers']]. *)
Definition loop_body (answers : list answer) (q_dict : question)
  : list answer :=
  match dispatch q_dict with
  | Skipped => answers
  | Retrieved None => answers
  | Retrieved (Some retrieved) =>
      answers ++ [{| answer_qid := qid q_dict; retrieve := retrieved |}]
  end.

Definition answer_loop (questions : list question) : list answer :=
  fold_left loop_body questions [].
End Loop.

(** [main], from reading the question file to the value handed to
    [json.dump]: the answers list, or nothing when the question file is
    missing and [main] returns early.  Creating the output directory
    ([ensure_dir_exists]) and writing the file are not modelled. *)
Definition main (fs : filesystem) (question_path source_path : str)
  : outcome (option (list answer)) :=
  match questions_file fs question_path with
  | None => Returns None
  | Some questions =>
      corpus_dict_insurance <-
        load_data fs (path_join source_path (lit "insurance")) ;;
      corpus_dict_finance <-
        load_data fs (path_join source_path (lit "finance")) ;;
      key_to_source_dict <- load_faq fs source_path ;;
      Returns (Some (answer_loop corpus_dict_insurance corpus_dict_finance
                                 key_to_source_dict questions))
  end.
End World.

(** The text [read_pdf] hands back for a path, and the mapping [load_data]
    hands back for a directory (both calls always return, see
    [read_pdf_returns] and [load_data_returns]). *)
Definition pdf_text {J : Type} (fs : filesystem J) (pdf_loc : str) : str :=
  match read_pdf fs pdf_loc with
  | Returns t => t
  | Raises _ => []
  end.

Definition loaded {J : Type} (py_int : str -> option Z) (fs : filesystem J)
    (source_path : str) : dict str :=
  match load_data py_int fs source_path with
  | Returns d => d
  | Raises _ => dict_empty
  end.

(** The text of a page that extracts without raising. *)
Definition page_text (p : page) : str :=
  match extract_text p with
  | Returns (Some s) => s
  | _ => []
  end.

Definition page_raises (p : page) : bool :=
  match extract_text p with
  | Raises _ => true
  | Returns _ => false
  end.

(** A file is unreadable or malformed when opening it, or extracting one
    of its pages, raises. *)
Definition unreadable {J : Type} (fs : filesystem J) (pdf_loc : str) : bool :=
  match pdf_open fs pdf_loc with
  | Raises _ => true
  | Returns pages => existsb page_raises pages
  end.

(** The text of a file whose pages all extract: their texts joined. *)
Definition pages_text {J : Type} (fs : filesystem J) (pdf_loc : str) : str :=
  match pdf_open fs pdf_loc with
  | Returns pages => List.concat (map page_text pages)
  | Raises _ => []
  end.

(** The id of a file whose name reduces to an integer. *)
Definition file_key (py_int : str -> option Z) (f : str) : Z :=
  match py_int (replace f (lit ".pdf") []) with
  | Some k => k
  | None => 0%Z
  end.

(** The categories [main] has a branch for. *)
Definition known_category (c : str) : bool :=
  str_eqb c (lit "finance") || str_eqb c (lit "insurance")
  || str_eqb c (lit "faq").

(** The id a question gets when its retrieval succeeds. *)
Definition retrieved_of (d : dispatched) : option Z :=
  match d with
  | Retrieved (Some r) => Some r
  | _ => None
  end.

Definition answers_of (q_dict : question) (d : dispatched) : list answer :=
  match retrieved_of d with
  | Some r => [{| answer_qid := qid q_dict; retrieve := r |}]
  | None => []
  end.

(** ** A small concrete world

    Instances of the outside world on which the definitions run: an
    ASCII reading of [int()], a one-character segmenter and a ranker by
    term overlap. *)

Module Demo.

Definition digit_of (c : char) : option Z :=
  if ((48 <=? c) && (c <=? 57))%N then Some (Z.of_N (c - 48)) else None.

(** Digits with single underscores between them, as [int()] accepts. *)
Fixpoint digits (acc : Z) (after_digit : bool) (s : str) : option Z :=
  match s with
  | [] => if after_digit then Some acc else None
  | c :: s' =>
      if (c =? 95)%N then
        if after_digit then digits acc false s' else None
      else
        match digit_of c with
        | Some d => digits (10 * acc + d)%Z true s'
        | None => None
        end
  end.

(** [int(s)] for a string of ASCII characters: surrounding whitespace, an
    optional sign, decimal digits. *)
Definition int_ascii (s : str) : option Z :=
  match strip s with
  | [] => None
  | c :: s' =>
      if (c =? 45)%N then option_map Z.opp (digits 0 false s')
      else if (c =? 43)%N then digits 0 false s'
      else digits 0 false (c :: s')
  end.

Definition cut_chars (s : str) : list str := map (fun c => [c]) s.

Definition overlap (query doc : list str) : nat :=
  List.length (filter (fun t => str_in t query) doc).

Fixpoint insert_desc (score : nat -> nat) (i : nat) (l : list nat) : list nat :=
  match l with
  | [] => [i]
  | j :: l' =>
      if Nat.ltb (score j) (score i) then i :: l
      else j :: insert_desc score i l'
  end.

Definition overlap_argsort (corpus : list (list str)) (query : list str)
  : list nat :=
  fold_right (insert_desc (fun i => overlap query (nth i corpus [])))
             [] (seq 0 (List.length corpus)).

Definition one_page (s : string) : page :=
  {| extract_text := Returns (Some (lit s)) |}.

Definition path_is (p : str) (s : string) : bool := str_eqb p (lit s).

Definition q_finance : question :=
  {| qid := 1; category := lit "finance"; query := lit "dividend";
     source := [1; 3]%Z |}.
Definition q_insurance : question :=
  {| qid := 2; category := lit "insurance"; query := lit "claim";
     source := [5]%Z |}.
Definition q_law : question :=
  {| qid := 3; category := lit "law"; query := lit "tax";
     source := [1]%Z |}.
Definition q_faq : question :=
  {| qid := 4; category := lit "faq"; query := lit "card";
     source := [7; 8]%Z |}.

(** A question of an unknown category that repeats the qid of
    [q_finance]. *)
Definition q_law_1 : question :=
  {| qid := 1; category := lit "law"; query := lit "tax";
     source := [1]%Z |}.

(** ./reference has a finance directory with three PDFs (2.pdf cannot be
    opened) and a text file, a directory "mixed" with a PDF whose name is
    not a number, and no insurance directory. *)
Definition fs : filesystem str := {|
  listdir := fun p =>
    if path_is p "./reference/finance" then
      Returns [lit "1.pdf"; lit "2.pdf"; lit "3.pdf"; lit "notes.txt"]
    else if path_is p "./reference/mixed" then
      Returns [lit "1.pdf"; lit "2.pdf"; lit "notes.pdf"]
    else Raises FileNotFoundError;
  pdf_open := fun p =>
    if path_is p "./reference/finance/1.pdf" then
      Returns [one_page "annual report "; one_page "revenue"]
    else if path_is p "./reference/finance/3.pdf" then
      Returns [one_page "annual report ";
               {| extract_text := Returns None |}; one_page "dividend"]
    else if path_is p "./reference/mixed/2.pdf" then
      Returns [one_page "policy"]
    else if path_is p "./reference/mixed/notes.pdf" then
      Returns [one_page "notes"]
    else Raises OtherException;
  questions_file := fun p =>
    if path_is p "questions.json" then
      Some [q_finance; q_insurance; q_law; q_faq]
    else if path_is p "repeated.json" then
      Some [q_finance; q_law_1]
    else None;
  faq_file := fun p =>
    if path_is p "./reference/faq/pid_map_content.json" then
      Some [ (lit "7", lit "lost card"); (lit "8", lit "loan rate");
             (lit "9", lit "lost card") ]
    else None
|}.

(** The mappings the loader builds from it. *)
Definition finance_corpus : dict str :=
  [ (1%Z, lit "annual report revenue"); (2%Z, []);
    (3%Z, lit "annual report dividend") ].

Definition faq_dict : dict str :=
  [ (7%Z, lit "lost card"); (8%Z, lit "loan rate"); (9%Z, lit "lost card") ].

(** Two ids with the same text. *)
Definition twins : dict str := [(1%Z, lit "premium"); (2%Z, lit "premium")].

End Demo.

(** ** 1. Output directory *)

Fixpoint dropwhile {A : Type} (p : A -> bool) (l : list A) : list A :=
  match l with
  | [] => []
  | a :: l' => if p a then dropwhile p l' else l
  end.

Definition is_sep (c : char) : bool := (c =? 47)%N.

(** [os.path.dirname(p)] on POSIX: [head = p[:p.rfind('/') + 1]], with
    its trailing slashes stripped unless it is made of slashes only. *)
Definition dirname (p : str) : str :=
  let head := rev (dropwhile (fun c => negb (is_sep c)) (rev p)) in
  if truthy head && negb (forallb is_sep head)
  then rev (dropwhile is_sep (rev head))
  else head.

Section Os.
(** The directory tree, with the two calls [ensure_dir_exists] makes on
    it: [os.path.exists] and [os.makedirs]. *)
Variable S : Type.

Record os_calls : Type := {
  path_exists : S -> str -> bool;
  makedirs : S -> str -> outcome S
}.

Definition ensure_dir_exists (os : os_calls) (st : S) (path : str)
  : outcome S :=
  let directory := dirname path in
  if negb (path_exists os st directory)
  then makedirs os st directory
  else Returns st.
End Os.

(** ** Reading the retriever and the driver *)

(** A candidate counts when its text is present and not blank: the test
    of the second comprehension of [BM25_retrieve]. *)
Definition valid_candidate (corpus_dict : dict str) (f : Z) : bool :=
  truthy (strip (dict_get corpus_dict f [])).

(** The mapping a question is retrieved from, by category; [None] for a
    category [main] has no branch for. *)
Definition category_corpus {J : Type} (py_str : J -> str)
    (corpus_dict_insurance corpus_dict_finance : dict str)
    (key_to_source_dict : dict J) (q_dict : question) : option (dict str) :=
  if str_eqb (category q_dict) (lit "finance") then Some corpus_dict_finance
  else if str_eqb (category q_dict) (lit "insurance")
  then Some corpus_dict_insurance
  else if str_eqb (category q_dict) (lit "faq")
  then Some (corpus_dict_faq py_str key_to_source_dict (source q_dict))
  else None.

(** A question can be answered when its category is known and one of its
    candidates counts in the mapping of that category. *)
Definition answerable {J : Type} (py_str : J -> str)
    (corpus_dict_insurance corpus_dict_finance : dict str)
    (key_to_source_dict : dict J) (q_dict : question) : bool :=
  match category_corpus py_str corpus_dict_insurance corpus_dict_finance
                        key_to_source_dict q_dict with
  | Some d => existsb (valid_candidate d) (source q_dict)
  | None => false
  end.

Definition in_category (c : string) (q_dict : question) : bool :=
  str_eqb (category q_dict) (lit c).

(** ** More concrete worlds *)

Module Demo2.

(** A directory tree as the list of its directories; [makedirs] refuses
    the empty path, as the system call does. *)
Definition dirs : os_calls (list str) := {|
  path_exists := fun st d => str_in d st;
  makedirs := fun st d =>
    if truthy d then Returns (d :: st) else Raises FileNotFoundError
|}.

(** A tree where the finance directory cannot be listed, the insurance
    directory holds one PDF and there is no FAQ file. *)
Definition fs_locked : filesystem str := {|
  listdir := fun p =>
    if Demo.path_is p "./reference/finance" then Raises OtherException
    else if Demo.path_is p "./reference/insurance" then
      Returns [lit "5.pdf"; lit "5.pdf.bak"]
    else Raises FileNotFoundError;
  pdf_open := fun p =>
    if Demo.path_is p "./reference/insurance/5.pdf" then
      Returns [Demo.one_page "claim form"]
    else Raises OtherException;
  questions_file := fun p =>
    if Demo.path_is p "questions.json" then
      Some [Demo.q_finance; Demo.q_insurance; Demo.q_law; Demo.q_faq]
    else None;
  faq_file := fun _ => None
|}.

(** A tree whose FAQ file has a key that is not an integer. *)
Definition fs_bad_faq : filesystem str := {|
  listdir := listdir Demo.fs;
  pdf_open := pdf_open Demo.fs;
  questions_file := questions_file Demo.fs;
  faq_file := fun p =>
    if Demo.path_is p "./reference/faq/pid_map_content.json" then
      Some [ (lit "7", lit "lost card"); (lit "seven", lit "loan rate") ]
    else None
|}.

(** A page that cannot be extracted after one that can. *)
Definition fs_torn : filesystem str := {|
  listdir := listdir Demo.fs;
  pdf_open := fun p =>
    if Demo.path_is p "torn.pdf" then
      Returns [Demo.one_page "first page";
               {| extract_text := Raises OtherException |}]
    else pdf_open Demo.fs p;
  questions_file := questions_file Demo.fs;
  faq_file := faq_file Demo.fs
|}.

End Demo2.

(** * Properties *)

(** ** Strings *)

Lemma str_eqb_eq (a b : str) : str_eqb a b = true <-> a = b.
Proof.
  unfold str_eqb. destruct (list_eq_dec N.eq_dec a b); split; congruence.
Qed.

Lemma str_eqb_refl (a : str) : str_eqb a a = true.
Proof. now apply str_eqb_eq. Qed.

Lemma str_in_In (s : str) (l : list str) : str_in s l = true <-> In s l.
Proof.
  unfold str_in. rewrite existsb_exists. split.
  - intros [x [Hx He]]. apply str_eqb_eq in He. now subst.
  - intros H. exists s. split; [assumption | apply str_eqb_refl].
Qed.

Lemma lstrip_blank (s : str) : blank s = true -> lstrip s = [].
Proof.
  induction s as [|c s IH]; simpl; [reflexivity|].
  intros H. apply andb_true_iff in H as [Hc Hs]. rewrite Hc. now apply IH.
Qed.

Lemma lstrip_nil_blank (s : str) : lstrip s = [] -> blank s = true.
Proof.
  induction s as [|c s IH]; simpl; [reflexivity|].
  destruct (isspace c); [intros H; now apply IH | discriminate].
Qed.

Lemma lstrip_split (s : str) : exists p, s = p ++ lstrip s /\ blank p = true.
Proof.
  induction s as [|c s [p [Hp Hb]]]; simpl.
  - now exists [].
  - destruct (isspace c) eqn:Hc.
    + exists (c :: p). simpl. rewrite Hc, Hb. split; [now f_equal | reflexivity].
    + now exists [].
Qed.

Lemma blank_app (a b : str) : blank (a ++ b) = blank a && blank b.
Proof. unfold blank. apply forallb_app. Qed.

Lemma blank_rev (s : str) : blank (rev s) = blank s.
Proof.
  induction s as [|c s IH]; simpl; [reflexivity|].
  rewrite blank_app, IH. simpl. rewrite andb_true_r. apply andb_comm.
Qed.

(** [doc.strip()] is falsy exactly for the blank strings. *)
Lemma strip_truthy (s : str) : truthy (strip s) = negb (blank s).
Proof.
  unfold strip, rstrip.
  destruct (lstrip_split s) as [p [Hp Hb]].
  destruct (blank s) eqn:Hs; simpl.
  - rewrite (lstrip_blank s Hs). reflexivity.
  - destruct (rev (lstrip (rev (lstrip s)))) eqn:Hr; [|reflexivity].
    exfalso.
    apply (f_equal (@rev _)) in Hr. rewrite rev_involutive in Hr. simpl in Hr.
    apply lstrip_nil_blank in Hr. rewrite blank_rev in Hr.
    rewrite Hp, blank_app, Hb, Hr in Hs. discriminate.
Qed.

Lemma int_in_In (k : Z) (l : list Z) : int_in k l = true <-> In k l.
Proof.
  unfold int_in. rewrite existsb_exists. split.
  - intros [x [Hx He]]. apply Z.eqb_eq in He. now subst.
  - intros H. exists k. split; [assumption | apply Z.eqb_refl].
Qed.

(** ** Dictionaries *)

Section DictFacts.
Variable V : Type.
Implicit Types (d : dict V) (k : Z) (v : V).

Lemma dict_lookup_In d k v : dict_lookup d k = Some v -> In (k, v) d.
Proof.
  induction d as [|[k' v'] d IH]; simpl; [discriminate|].
  destruct (Z.eqb_spec k k') as [->|Hne].
  - intros [= ->]. now left.
  - intros H. right. now apply IH.
Qed.

Lemma dict_lookup_None d k : dict_lookup d k = None <-> ~ In k (dict_keys d).
Proof.
  induction d as [|[k' v'] d IH]; simpl; [tauto|].
  destruct (Z.eqb_spec k k') as [->|Hne].
  - split; [discriminate | intros H; exfalso; apply H; now left].
  - rewrite IH. split; [intros H [E|I]; [congruence | tauto] | tauto].
Qed.

Lemma In_dict_lookup d k v :
  dict_wf d -> In (k, v) d -> dict_lookup d k = Some v.
Proof.
  unfold dict_wf.
  induction d as [|[k' v'] d IH]; simpl; [tauto|].
  intros Hwf. inversion Hwf as [|? ? Hnotin Hwf']; subst.
  intros [[= -> ->]|Hin].
  - now rewrite Z.eqb_refl.
  - destruct (Z.eqb_spec k k') as [->|Hne]; [|now apply IH].
    exfalso. apply Hnotin. change (In (fst (k', v)) (map fst d)).
    now apply in_map.
Qed.

Lemma dict_set_keys d k v k' :
  In k' (dict_keys (dict_set d k v)) <-> k' = k \/ In k' (dict_keys d).
Proof.
  induction d as [|[k0 v0] d IH]; simpl.
  - intuition.
  - destruct (Z.eqb_spec k k0) as [->|Hne]; simpl.
    + intuition.
    + unfold dict_keys in IH. rewrite IH. intuition.
Qed.

Lemma dict_set_wf d k v : dict_wf d -> dict_wf (dict_set d k v).
Proof.
  unfold dict_wf.
  induction d as [|[k0 v0] d IH]; simpl; intros Hwf.
  - constructor; [intros [] | constructor].
  - inversion Hwf as [|? ? Hnotin Hwf']; subst.
    destruct (Z.eqb_spec k k0) as [->|Hne]; simpl.
    + now constructor.
    + constructor; [|now apply IH].
      intros Hin. apply (dict_set_keys d k v k0) in Hin.
      destruct Hin as [E|Hin]; [congruence | contradiction].
Qed.

Lemma dict_lookup_set d k v k' :
  dict_lookup (dict_set d k v) k' =
  if Z.eqb k' k then Some v else dict_lookup d k'.
Proof.
  induction d as [|[k0 v0] d IH]; simpl.
  - reflexivity.
  - destruct (Z.eqb_spec k k0) as [->|Hne]; simpl.
    + destruct (Z.eqb_spec k' k0); reflexivity.
    + rewrite IH. destruct (Z.eqb_spec k' k0) as [->|Hne'].
      * destruct (Z.eqb_spec k0 k); [congruence | reflexivity].
      * reflexivity.
Qed.

Lemma fold_set_wf (pairs : list (Z * V)) d :
  dict_wf d -> dict_wf (fold_left set_pair pairs d).
Proof.
  revert d. induction pairs as [|kv pairs IH]; simpl; intros d Hwf.
  - assumption.
  - apply IH. now apply dict_set_wf.
Qed.

Lemma fold_set_keys (pairs : list (Z * V)) d k :
  In k (dict_keys (fold_left set_pair pairs d)) <->
  In k (dict_keys d) \/ In k (map fst pairs).
Proof.
  revert d. induction pairs as [|kv pairs IH]; simpl; intros d.
  - tauto.
  - rewrite IH. unfold set_pair. rewrite dict_set_keys.
    intuition congruence.
Qed.

(** Later pairs win: a key's value is the one of its last pair. *)
Lemma fold_set_lookup (pairs : list (Z * V)) d k :
  dict_lookup (fold_left set_pair pairs d) k =
  match dict_lookup (rev pairs) k with
  | Some v => Some v
  | None => dict_lookup d k
  end.
Proof.
  revert d. induction pairs as [|[k0 v0] pairs IH]; simpl; intros d.
  - reflexivity.
  - rewrite IH. unfold set_pair. simpl. rewrite dict_lookup_set.
    assert (Happ : forall l1 l2 : dict V,
               dict_lookup (l1 ++ l2) k =
               match dict_lookup l1 k with
               | Some v => Some v
               | None => dict_lookup l2 k
               end).
    { induction l1 as [|[k1 v1] l1 IH1]; simpl; intros l2; [reflexivity|].
      destruct (Z.eqb k k1); [reflexivity | apply IH1]. }
    rewrite Happ. simpl.
    destruct (dict_lookup (rev pairs) k); [reflexivity|].
    destruct (Z.eqb k k0); reflexivity.
Qed.

Lemma dict_of_pairs_wf (pairs : list (Z * V)) : dict_wf (dict_of_pairs pairs).
Proof. apply fold_set_wf. constructor. Qed.

Lemma dict_of_pairs_keys (pairs : list (Z * V)) k :
  In k (dict_keys (dict_of_pairs pairs)) <-> In k (map fst pairs).
Proof.
  unfold dict_of_pairs. rewrite fold_set_keys. simpl. tauto.
Qed.

Lemma dict_of_pairs_lookup (pairs : list (Z * V)) k :
  dict_lookup (dict_of_pairs pairs) k = dict_lookup (rev pairs) k.
Proof.
  unfold dict_of_pairs. rewrite fold_set_lookup. simpl.
  now destruct (dict_lookup (rev pairs) k).
Qed.

(** The pair of a key that no later pair repeats is the one stored. *)
Lemma dict_of_pairs_last (l1 l2 : list (Z * V)) k v :
  ~ In k (map fst l2) ->
  dict_lookup (dict_of_pairs (l1 ++ (k, v) :: l2)) k = Some v.
Proof.
  intros Hnot. rewrite dict_of_pairs_lookup, rev_app_distr. simpl.
  rewrite <- app_assoc. simpl.
  assert (Hnone : dict_lookup (rev l2) k = None).
  { apply dict_lookup_None. unfold dict_keys. rewrite map_rev.
    intros Hin. apply Hnot. now apply in_rev. }
  revert Hnone. generalize (rev l2). intros l.
  induction l as [|[k1 v1] l IH]; simpl.
  - now rewrite Z.eqb_refl.
  - destruct (Z.eqb k k1); [discriminate | exact IH].
Qed.
End DictFacts.

(** ** Corpus loader *)

Lemma map_outcome_returns (A B : Type) (f : A -> outcome B) (g : A -> B)
    (l : list A) :
  (forall a, In a l -> f a = Returns (g a)) ->
  map_outcome f l = Returns (map g l).
Proof.
  induction l as [|a l IH]; simpl; intros H; [reflexivity|].
  rewrite (H a (or_introl eq_refl)). simpl.
  rewrite IH by (intros b Hb; apply H; now right). reflexivity.
Qed.

Lemma map_outcome_raises (A B : Type) (f : A -> outcome B) (l : list A) a e :
  In a l -> f a = Raises e -> exists e', map_outcome f l = Raises e'.
Proof.
  induction l as [|b l IH]; simpl; [tauto|].
  intros [->|Hin] Hf.
  - rewrite Hf. simpl. now exists e.
  - destruct (f b); simpl; [|eauto].
    destruct (IH Hin Hf) as [e' ->]. simpl. now exists e'.
Qed.

Section LoaderFacts.
Variable J : Type.
Variable py_int : str -> option Z.
Implicit Types (fs : filesystem J) (p f : str).

Lemma text_or_empty_page_text (pg : page) :
  page_raises pg = false -> text_or_empty pg = Returns (page_text pg).
Proof.
  unfold page_raises, text_or_empty, page_text.
  destruct (extract_text pg) as [[s|]|e]; simpl; try discriminate;
    intros _; [|reflexivity].
  now destruct s.
Qed.

(** [read_pdf] never raises. *)
Lemma read_pdf_returns fs p : read_pdf fs p = Returns (pdf_text fs p).
Proof.
  unfold pdf_text, read_pdf, try_except.
  destruct (pdf_open fs p) as [pages|e]; simpl; [|reflexivity].
  destruct (map_outcome text_or_empty pages); reflexivity.
Qed.

(** An unreadable or malformed file reads as the empty string. *)
Lemma pdf_text_unreadable fs p : unreadable fs p = true -> pdf_text fs p = [].
Proof.
  unfold unreadable, pdf_text, read_pdf, try_except.
  destruct (pdf_open fs p) as [pages|e]; simpl; [|reflexivity].
  intros H. apply existsb_exists in H as [pg [Hin Hr]].
  assert (Hraise : exists e, text_or_empty pg = Raises e).
  { unfold page_raises in Hr. unfold text_or_empty.
    destruct (extract_text pg) as [t|e]; [discriminate | now exists e]. }
  destruct Hraise as [e He].
  destruct (map_outcome_raises text_or_empty pages pg Hin He) as [e' ->].
  reflexivity.
Qed.

(** Any other file reads as the texts of its pages, joined. *)
Lemma pdf_text_readable fs p :
  unreadable fs p = false -> pdf_text fs p = pages_text fs p.
Proof.
  unfold unreadable, pdf_text, pages_text, read_pdf, try_except.
  destruct (pdf_open fs p) as [pages|e]; simpl; [|discriminate].
  intros H.
  rewrite (map_outcome_returns text_or_empty page_text pages); [reflexivity|].
  intros pg Hin. apply text_or_empty_page_text.
  destruct (page_raises pg) eqn:Hr; [|reflexivity].
  assert (Hex : existsb page_raises pages = true)
    by (apply existsb_exists; eauto).
  congruence.
Qed.

(** [load_data] never raises. *)
Lemma load_data_returns fs p :
  load_data py_int fs p = Returns (loaded py_int fs p).
Proof.
  unfold loaded, load_data, try_except.
  destruct (listdir fs p) as [names|e]; simpl.
  - destruct (map_outcome (load_one py_int fs p) (pdf_files names)); simpl;
      [reflexivity | destruct e; reflexivity].
  - destruct e; reflexivity.
Qed.

Lemma load_one_returns fs p f :
  py_int (replace f (lit ".pdf") []) <> None ->
  load_one py_int fs p f =
  Returns (file_key py_int f, pdf_text fs (path_join p f)).
Proof.
  unfold load_one, file_id, int_of, file_key. intros H.
  destruct (py_int (replace f (lit ".pdf") [])) as [k|]; [|congruence].
  simpl. now rewrite read_pdf_returns.
Qed.

(** With every PDF name an integer, the mapping is built from the pairs
    (id, text) in listing order. *)
Lemma load_data_pairs fs p names :
  listdir fs p = Returns names ->
  (forall f, In f (pdf_files names) ->
             py_int (replace f (lit ".pdf") []) <> None) ->
  load_data py_int fs p =
  Returns (dict_of_pairs
             (map (fun f => (file_key py_int f, pdf_text fs (path_join p f)))
                  (pdf_files names))).
Proof.
  intros Hls Hnames. unfold load_data. rewrite Hls. simpl.
  rewrite (map_outcome_returns (load_one py_int fs p)
             (fun f => (file_key py_int f, pdf_text fs (path_join p f)))).
  - reflexivity.
  - intros f Hin. apply load_one_returns. now apply Hnames.
Qed.

(** One PDF name that is not an integer empties the whole mapping. *)
Lemma load_data_bad_name fs p names f :
  listdir fs p = Returns names ->
  In f (pdf_files names) ->
  py_int (replace f (lit ".pdf") []) = None ->
  load_data py_int fs p = Returns dict_empty.
Proof.
  intros Hls Hin Hnone. unfold load_data. rewrite Hls. simpl.
  assert (Hr : load_one py_int fs p f = Raises ValueError).
  { unfold load_one, file_id, int_of. now rewrite Hnone. }
  destruct (map_outcome_raises _ _ _ Hin Hr) as [e' ->]. simpl.
  destruct e'; reflexivity.
Qed.

(** C6: for a directory that does not exist ([os.listdir] raises
    [FileNotFoundError]), [load_data] returns the empty mapping and
    raises nothing. *)
Theorem load_data_missing_directory fs source_path :
  listdir fs source_path = Raises FileNotFoundError ->
  load_data py_int fs source_path = Returns dict_empty.
Proof.
  intros H. unfold load_data. rewrite H. reflexivity.
Qed.

(** C7, amended: in a directory whose PDF names all reduce to an
    integer, [load_data] returns a mapping and raises nothing; a file
    that is unreadable or malformed has the empty string under its id,
    and every file that reads has the joined text of its pages under
    its id, as long as no file listed later has the same id. *)
Theorem load_data_isolates_bad_file fs source_path names bad :
  listdir fs source_path = Returns names ->
  (forall f, In f (pdf_files names) ->
             py_int (replace f (lit ".pdf") []) <> None) ->
  In bad (pdf_files names) ->
  unreadable fs (path_join source_path bad) = true ->
  exists d,
    load_data py_int fs source_path = Returns d /\
    (forall l1 l2, pdf_files names = l1 ++ bad :: l2 ->
       ~ In (file_key py_int bad) (map (file_key py_int) l2) ->
       dict_lookup d (file_key py_int bad) = Some []) /\
    (forall l1 f l2, pdf_files names = l1 ++ f :: l2 ->
       ~ In (file_key py_int f) (map (file_key py_int) l2) ->
       unreadable fs (path_join source_path f) = false ->
       dict_lookup d (file_key py_int f) =
       Some (pages_text fs (path_join source_path f))).
Proof.
  intros Hls Hnames Hbad Hun.
  eexists. split; [apply (load_data_pairs fs source_path Hls Hnames)|].
  assert (Hlast : forall l1 f l2, pdf_files names = l1 ++ f :: l2 ->
            ~ In (file_key py_int f) (map (file_key py_int) l2) ->
            dict_lookup
              (dict_of_pairs
                 (map (fun f => (file_key py_int f,
                                 pdf_text fs (path_join source_path f)))
                      (pdf_files names)))
              (file_key py_int f) =
            Some (pdf_text fs (path_join source_path f))).
  { intros l1 f l2 Hsplit Hnot. rewrite Hsplit, map_app. simpl.
    apply dict_of_pairs_last. now rewrite map_map. }
  split.
  - intros l1 l2 Hsplit Hnot.
    rewrite (Hlast l1 bad l2 Hsplit Hnot).
    now rewrite (pdf_text_unreadable fs _ Hun).
  - intros l1 f l2 Hsplit Hnot Hok.
    rewrite (Hlast l1 f l2 Hsplit Hnot).
    now rewrite (pdf_text_readable fs _ Hok).
Qed.
End LoaderFacts.

(** ** Retriever *)

Section RetrieverFacts.
Variable cut_for_search : str -> list str.
Variable bm25_argsort : list (list str) -> list str -> list nat.

(** [np.argsort] returns a permutation of the document indices. *)
Hypothesis bm25_argsort_perm : forall corpus tokenized_query,
  Permutation (bm25_argsort corpus tokenized_query)
              (seq 0 (List.length corpus)).

Implicit Types (qs : str) (source : list Z) (corpus_dict : dict str).

Local Abbreviation retrieve_id := (BM25_retrieve cut_for_search bm25_argsort).
Local Abbreviation winner := (top_1 cut_for_search bm25_argsort).

(** The filtered corpus holds exactly the non-blank texts of the
    candidates that are keys of the mapping. *)
Lemma filtered_corpus_In source corpus_dict t :
  In t (filtered_corpus source corpus_dict) <->
  exists f, In f source /\ dict_lookup corpus_dict f = Some t
            /\ blank t = false.
Proof.
  unfold filtered_corpus. rewrite filter_In, in_map_iff, strip_truthy.
  split.
  - intros [[f [Hget Hin]] Hb]. apply negb_true_iff in Hb.
    exists f. repeat split; try assumption.
    unfold dict_get in Hget.
    destruct (dict_lookup corpus_dict f) as [v|]; [now subst|].
    subst t. discriminate.
  - intros [f [Hin [Hl Hb]]]. split.
    + exists f. unfold dict_get. now rewrite Hl.
    + now rewrite Hb.
Qed.

(** On a non-empty corpus the ranker's top 1 is one of the documents. *)
Lemma top_1_winner qs (docs : list str) :
  docs <> [] -> exists w, winner qs docs = [w] /\ In w docs.
Proof.
  intros Hne. unfold top_1, get_top_n.
  pose proof (bm25_argsort_perm (map cut_for_search docs)
                                (cut_for_search qs)) as Hp.
  rewrite length_map in Hp.
  destruct (bm25_argsort (map cut_for_search docs) (cut_for_search qs))
    as [|i rest].
  - apply Permutation_length in Hp. rewrite length_seq in Hp.
    destruct docs; [congruence | discriminate].
  - simpl. exists (nth i docs []). split; [reflexivity|].
    apply nth_In.
    assert (Hi : In i (seq 0 (List.length docs)))
      by (eapply Permutation_in; [exact Hp | now left]).
    apply in_seq in Hi. lia.
Qed.

Lemma top_1_empty qs : winner qs [] = [].
Proof.
  unfold top_1, get_top_n.
  pose proof (bm25_argsort_perm (map cut_for_search [])
                                (cut_for_search qs)) as Hp.
  simpl in Hp. apply Permutation_sym, Permutation_nil in Hp.
  simpl. now rewrite Hp.
Qed.

(** The reverse lookup, on any list of pairs: its first hit splits the
    list. *)
Lemma first_key_split (top : list str) (d : list (Z * str)) r res :
  map fst (filter (fun kv => str_in (snd kv) top) d) = r :: res ->
  exists l1 w l2,
    d = l1 ++ (r, w) :: l2 /\ In w top /\
    forall kv, In kv l1 -> ~ In (snd kv) top.
Proof.
  induction d as [|[k v] rest IH]; simpl; [discriminate|].
  destruct (str_in v top) eqn:Hv; simpl.
  - intros [= -> _]. exists [], v, rest. repeat split.
    + now apply str_in_In.
    + intros kv [].
  - intros H. destruct (IH H) as [l1 [w [l2 [E [Hw Hl1]]]]].
    exists ((k, v) :: l1), w, l2. repeat split.
    + simpl. now rewrite E.
    + assumption.
    + intros kv [<-|Hin]; [|now apply Hl1].
      simpl. intros Hin. apply str_in_In in Hin. congruence.
Qed.

(** What a returned id is: the first key of the mapping whose text is
    in the top 1. *)
Lemma BM25_retrieve_Some qs source corpus_dict r :
  retrieve_id qs source corpus_dict = Some r ->
  exists l1 w l2,
    corpus_dict = l1 ++ (r, w) :: l2 /\
    In w (winner qs (filtered_corpus source corpus_dict)) /\
    forall kv, In kv l1 ->
      ~ In (snd kv) (winner qs (filtered_corpus source corpus_dict)).
Proof.
  unfold BM25_retrieve.
  destruct (filtered_corpus source corpus_dict) as [|d0 ds] eqn:Hf;
    [discriminate|].
  unfold dict_items.
  destruct (map fst (filter (fun kv => str_in (snd kv) (winner qs (d0 :: ds)))
                            corpus_dict)) as [|r' res] eqn:Hres;
    [discriminate|].
  intros [= ->]. now apply (first_key_split _ _ Hres).
Qed.

(** The reverse lookup succeeds as soon as a text of the top 1 is a
    value of the mapping. *)
Lemma BM25_retrieve_finds qs source corpus_dict k w :
  filtered_corpus source corpus_dict <> [] ->
  In w (winner qs (filtered_corpus source corpus_dict)) ->
  In (k, w) corpus_dict ->
  exists r, retrieve_id qs source corpus_dict = Some r.
Proof.
  unfold BM25_retrieve. intros Hne Hw Hin.
  destruct (filtered_corpus source corpus_dict) as [|d0 ds] eqn:Hf;
    [congruence|].
  destruct (map fst (filter (fun kv => str_in (snd kv) (winner qs (d0 :: ds)))
                            (dict_items corpus_dict))) as [|r res] eqn:Hres.
  - exfalso.
    assert (Hk : In k (map fst
               (filter (fun kv => str_in (snd kv) (winner qs (d0 :: ds)))
                       (dict_items corpus_dict)))).
    { change k with (fst (k, w)). apply in_map. apply filter_In.
      split; [exact Hin | now apply str_in_In]. }
    rewrite Hres in Hk. destruct Hk.
  - now exists r.
Qed.

(** C2: when the candidate set is empty, or every candidate id is
    absent from the mapping or maps to a blank text (empty or
    whitespace only), [BM25_retrieve] returns [None]. *)
Theorem BM25_retrieve_no_valid_document qs source corpus_dict :
  (forall f, In f source ->
     dict_lookup corpus_dict f = None \/
     exists t, dict_lookup corpus_dict f = Some t /\ blank t = true) ->
  retrieve_id qs source corpus_dict = None.
Proof.
  intros H. unfold BM25_retrieve.
  destruct (filtered_corpus source corpus_dict) as [|d0 ds] eqn:Hf;
    [reflexivity|].
  exfalso.
  assert (Hin : In d0 (filtered_corpus source corpus_dict))
    by (rewrite Hf; now left).
  apply filtered_corpus_In in Hin as [f [Hs [Hl Hb]]].
  destruct (H f Hs) as [Hn|[t [Ht Hbt]]]; congruence.
Qed.

(** C9: when some candidate id maps to a non-blank text,
    [BM25_retrieve] returns an id: the reverse lookup finds a key,
    since the winning text is a value of the mapping. *)
Theorem BM25_retrieve_returns_id qs source corpus_dict :
  (exists f t, In f source /\ dict_lookup corpus_dict f = Some t
               /\ blank t = false) ->
  exists r, retrieve_id qs source corpus_dict = Some r.
Proof.
  intros [f [t [Hs [Hl Hb]]]].
  assert (Hin : In t (filtered_corpus source corpus_dict))
    by (apply filtered_corpus_In; eauto).
  assert (Hne : filtered_corpus source corpus_dict <> [])
    by (intros E; rewrite E in Hin; destruct Hin).
  destruct (top_1_winner qs Hne) as [w [Htop Hw]].
  apply filtered_corpus_In in Hw as [f' [_ [Hl' _]]].
  apply dict_lookup_In in Hl'.
  apply BM25_retrieve_finds with (k := f') (w := w).
  - exact Hne.
  - rewrite Htop. now left.
  - exact Hl'.
Qed.

(** C5: when distinct ids [k1], [k2] carry the same text [w] and [w]
    is the ranker's winner among the candidates, [BM25_retrieve]
    returns an id whose text is [w]: the first such id of the mapping. *)
Theorem BM25_retrieve_duplicate_texts qs source corpus_dict k1 k2 w :
  dict_wf corpus_dict ->
  k1 <> k2 ->
  dict_lookup corpus_dict k1 = Some w ->
  dict_lookup corpus_dict k2 = Some w ->
  winner qs (filtered_corpus source corpus_dict) = [w] ->
  exists r,
    retrieve_id qs source corpus_dict = Some r /\
    dict_lookup corpus_dict r = Some w /\
    exists before after,
      dict_items corpus_dict = before ++ (r, w) :: after /\
      forall kv, In kv before -> snd kv <> w.
Proof.
  intros Hwf _ Hk1 _ Htop.
  assert (Hne : filtered_corpus source corpus_dict <> []).
  { intros E. rewrite E, top_1_empty in Htop. discriminate. }
  destruct (@BM25_retrieve_finds qs source corpus_dict k1 w) as [r Hr].
  - exact Hne.
  - rewrite Htop. now left.
  - now apply dict_lookup_In.
  - exists r. split; [exact Hr|].
    destruct (@BM25_retrieve_Some qs source corpus_dict r Hr) as [l1 [w' [l2 [E [Hw' Hl1]]]]].
    rewrite Htop in Hw'. destruct Hw' as [<-|[]].
    split.
    + apply In_dict_lookup; [exact Hwf|].
      rewrite E. apply in_or_app. right. now left.
    + exists l1, l2. split; [exact E|].
      intros kv Hin Heq. apply (Hl1 kv Hin). rewrite Htop. now left.
Qed.
End RetrieverFacts.


(** A returned id is always a key of the mapping that was passed. *)
Lemma BM25_retrieve_key cut_for_search bm25_argsort qs source
    (corpus_dict : dict str) r :
  BM25_retrieve cut_for_search bm25_argsort qs source corpus_dict = Some r ->
  In r (dict_keys corpus_dict).
Proof.
  intros H. apply BM25_retrieve_Some in H as [l1 [w [l2 [E _]]]].
  rewrite E. unfold dict_keys. rewrite map_app. apply in_or_app.
  right. now left.
Qed.

Section CandidateSet.
Variable cut_for_search : str -> list str.
Variable bm25_argsort : list (list str) -> list str -> list nat.
Hypothesis bm25_argsort_perm : forall corpus tokenized_query,
  Permutation (bm25_argsort corpus tokenized_query)
              (seq 0 (List.length corpus)).

Local Abbreviation retrieve_id := (BM25_retrieve cut_for_search bm25_argsort).

(** Where no two ids share a non-blank text, the returned id is one of
    the candidates. *)
Lemma BM25_retrieve_in_source_distinct_texts qs source
    (corpus_dict : dict str) r :
  (forall k1 k2 t, In (k1, t) corpus_dict -> In (k2, t) corpus_dict ->
                   blank t = false -> k1 = k2) ->
  retrieve_id qs source corpus_dict = Some r ->
  In r source.
Proof.
  intros Hinj Hr.
  destruct (@BM25_retrieve_Some cut_for_search bm25_argsort qs source
              corpus_dict r Hr) as [l1 [w [l2 [E [Hw _]]]]].
  assert (Hne : filtered_corpus source corpus_dict <> []).
  { intros Hnil. unfold BM25_retrieve in Hr. rewrite Hnil in Hr.
    discriminate. }
  destruct (@top_1_winner cut_for_search bm25_argsort bm25_argsort_perm
              qs _ Hne)
    as [w' [Htop Hw']].
  rewrite Htop in Hw. destruct Hw as [<-|[]].
  apply filtered_corpus_In in Hw' as [f [Hs [Hl Hb]]].
  apply dict_lookup_In in Hl.
  assert (Hrw : In (r, w') corpus_dict)
    by (rewrite E; apply in_or_app; right; now left).
  now rewrite (Hinj r f w' Hrw Hl Hb).
Qed.

(** C1 fails on the code: with the same text under ids 1 and 2 and the
    single candidate 2, which maps to a non-blank text, [BM25_retrieve]
    returns id 1, which is not a candidate. *)
Theorem BM25_retrieve_leaves_candidate_set qs :
  dict_lookup Demo.twins 2 = Some (lit "premium") /\
  blank (lit "premium") = false /\
  retrieve_id qs [2%Z] Demo.twins = Some 1%Z /\
  ~ In 1%Z [2%Z].
Proof.
  split; [reflexivity|]. split; [reflexivity|]. split.
  - unfold BM25_retrieve.
    change (filtered_corpus [2%Z] Demo.twins) with [lit "premium"].
    assert (Hne : [lit "premium"] <> []) by discriminate.
    destruct (@top_1_winner cut_for_search bm25_argsort bm25_argsort_perm
              qs _ Hne)
      as [w [Htop [<-|[]]]].
    rewrite Htop. reflexivity.
  - intros [H|[]]. discriminate.
Qed.
End CandidateSet.

(** ** Driver *)

Section DriverFacts.
Variable J : Type.
Variable py_str : J -> str.
Variable py_int : str -> option Z.
Variable cut_for_search : str -> list str.
Variable bm25_argsort : list (list str) -> list str -> list nat.

Implicit Types (fs : filesystem J) (q : question) (faq : dict J).

Local Abbreviation run := (main py_str py_int cut_for_search bm25_argsort).
Local Abbreviation dispatch_on :=
  (dispatch py_str cut_for_search bm25_argsort).
Local Abbreviation loop := (answer_loop py_str cut_for_search bm25_argsort).

(** The three corpora [main] works on. *)
Local Abbreviation insurance fs source_path :=
  (loaded py_int fs (path_join source_path (lit "insurance"))).
Local Abbreviation finance fs source_path :=
  (loaded py_int fs (path_join source_path (lit "finance"))).

(** The FAQ corpus of a question has the FAQ keys that are candidates. *)
Lemma corpus_dict_faq_keys faq source k :
  In k (dict_keys (corpus_dict_faq py_str faq source)) <->
  In k (dict_keys faq) /\ In k source.
Proof.
  unfold corpus_dict_faq, dict_items. rewrite dict_of_pairs_keys, map_map.
  simpl. unfold dict_keys. rewrite !in_map_iff. split.
  - intros [kv [<- Hin]]. apply filter_In in Hin as [Hin Hs].
    apply int_in_In in Hs. split; [|assumption]. now exists kv.
  - intros [[kv [<- Hin]] Hs]. exists kv. split; [reflexivity|].
    apply filter_In. split; [assumption | now apply int_in_In].
Qed.

Lemma dispatch_skipped ins fin faq q :
  dispatch_on ins fin faq q = Skipped <-> known_category (category q) = false.
Proof.
  unfold dispatch, known_category.
  destruct (str_eqb (category q) (lit "finance"));
    destruct (str_eqb (category q) (lit "insurance"));
    destruct (str_eqb (category q) (lit "faq")); simpl;
    split; intros H; try reflexivity; discriminate.
Qed.

Lemma loop_body_answers ins fin faq answers q :
  loop_body py_str cut_for_search bm25_argsort ins fin faq answers q =
  answers ++ answers_of q (dispatch_on ins fin faq q).
Proof.
  unfold loop_body, answers_of, retrieved_of.
  destruct (dispatch_on ins fin faq q) as [|[r|]];
    try reflexivity; now rewrite app_nil_r.
Qed.

(** The loop appends, question by question, what each question yields. *)
Lemma fold_loop_body ins fin faq questions answers :
  fold_left (loop_body py_str cut_for_search bm25_argsort ins fin faq)
            questions answers =
  answers ++ flat_map (fun q => answers_of q (dispatch_on ins fin faq q))
                      questions.
Proof.
  revert answers. induction questions as [|q questions IH]; simpl;
    intros answers.
  - now rewrite app_nil_r.
  - rewrite IH, loop_body_answers. now rewrite <- app_assoc.
Qed.

Lemma answer_loop_flat_map ins fin faq questions :
  loop ins fin faq questions =
  flat_map (fun q => answers_of q (dispatch_on ins fin faq q)) questions.
Proof. unfold answer_loop. now rewrite fold_loop_body. Qed.

Lemma answer_loop_length ins fin faq questions :
  List.length (loop ins fin faq questions) <= List.length questions.
Proof.
  rewrite answer_loop_flat_map.
  induction questions as [|q questions IH]; simpl; [lia|].
  rewrite length_app. unfold answers_of at 1.
  destruct (retrieved_of (dispatch_on ins fin faq q)); simpl; lia.
Qed.

(** [main] writes the answers of the loop whenever the question file
    exists and the FAQ keys are integers (or the FAQ file is missing). *)
Lemma main_returns fs question_path source_path questions faq :
  questions_file fs question_path = Some questions ->
  load_faq py_int fs source_path = Returns faq ->
  run fs question_path source_path =
  Returns (Some (loop (insurance fs source_path) (finance fs source_path)
                      faq questions)).
Proof.
  intros Hq Hfaq. unfold main. rewrite Hq, !load_data_returns. simpl.
  rewrite Hfaq. reflexivity.
Qed.

(** Conversely, what [main] writes comes from the loop. *)
Lemma main_written fs question_path source_path answers :
  run fs question_path source_path = Returns (Some answers) ->
  exists questions faq,
    questions_file fs question_path = Some questions /\
    load_faq py_int fs source_path = Returns faq /\
    answers = loop (insurance fs source_path) (finance fs source_path)
                   faq questions.
Proof.
  unfold main.
  destruct (questions_file fs question_path) as [questions|];
    [|discriminate].
  rewrite !load_data_returns. simpl.
  destruct (load_faq py_int fs source_path) as [faq|e]; simpl;
    [|discriminate].
  intros [= <-]. now exists questions, faq.
Qed.
End DriverFacts.

Section DriverProperties.
Variable J : Type.
Variable py_str : J -> str.
Variable py_int : str -> option Z.
Variable cut_for_search : str -> list str.
Variable bm25_argsort : list (list str) -> list str -> list nat.

Implicit Types (fs : filesystem J) (q : question) (faq : dict J).

Local Abbreviation run := (main py_str py_int cut_for_search bm25_argsort).
Local Abbreviation dispatch_on :=
  (dispatch py_str cut_for_search bm25_argsort).
Local Abbreviation loop := (answer_loop py_str cut_for_search bm25_argsort).
Local Abbreviation insurance fs source_path :=
  (loaded py_int fs (path_join source_path (lit "insurance"))).
Local Abbreviation finance fs source_path :=
  (loaded py_int fs (path_join source_path (lit "finance"))).

(** What the questions of a list yield, in their order. *)
Local Abbreviation yields ins fin faq :=
  (flat_map (fun q => answers_of q (dispatch_on ins fin faq q))).

(** C3, amended: a question whose category is none of finance,
    insurance and faq contributes no entry: [main] writes the answers
    list it writes without that question; the question's qid is the qid
    of an answer only when another question, of a known category,
    carries the same qid. *)
Theorem main_skips_unknown_category fs question_path source_path
    before q after faq :
  questions_file fs question_path = Some (before ++ q :: after) ->
  known_category (category q) = false ->
  load_faq py_int fs source_path = Returns faq ->
  exists answers,
    run fs question_path source_path = Returns (Some answers) /\
    answers = loop (insurance fs source_path) (finance fs source_path) faq
                   (before ++ after) /\
    forall a, In a answers -> answer_qid a = qid q ->
      exists q', In q' (before ++ after) /\ qid q' = qid q /\
                 known_category (category q') = true.
Proof.
  intros Hq Hcat Hfaq. eexists. split; [|split].
  - apply (main_returns py_str py_int cut_for_search bm25_argsort
             fs question_path source_path Hq Hfaq).
  - rewrite !answer_loop_flat_map, !flat_map_app. simpl.
    apply (dispatch_skipped py_str cut_for_search bm25_argsort
             (insurance fs source_path) (finance fs source_path) faq)
      in Hcat.
    rewrite Hcat. reflexivity.
  - intros a Hin Hqid.
    rewrite answer_loop_flat_map in Hin.
    apply in_flat_map in Hin as [q' [Hq' Ha]].
    unfold answers_of in Ha.
    destruct (retrieved_of (dispatch_on (insurance fs source_path)
                (finance fs source_path) faq q')) as [r|] eqn:Hr;
      [|destruct Ha].
    destruct Ha as [<-|[]]. simpl in Hqid.
    assert (Hknown : known_category (category q') = true).
    { destruct (known_category (category q')) eqn:Hk; [reflexivity|].
      apply (dispatch_skipped py_str cut_for_search bm25_argsort
               (insurance fs source_path) (finance fs source_path) faq)
        in Hk.
      rewrite Hk in Hr. discriminate. }
    exists q'. repeat split; try assumption.
    apply in_app_or in Hq'. apply in_or_app.
    destruct Hq' as [Hb|[<-|Ha]]; [now left | | now right].
    congruence.
Qed.

(** C4: the answers list [main] writes has at most as many entries as
    there are questions, and [main] does write it whenever the FAQ file
    loads. *)
Theorem main_answer_count fs question_path source_path questions :
  questions_file fs question_path = Some questions ->
  (forall answers,
     run fs question_path source_path = Returns (Some answers) ->
     List.length answers <= List.length questions) /\
  (forall faq,
     load_faq py_int fs source_path = Returns faq ->
     exists answers,
       run fs question_path source_path = Returns (Some answers) /\
       List.length answers <= List.length questions).
Proof.
  intros Hq. split.
  - intros answers Hrun.
    apply main_written in Hrun as [questions' [faq [Hq' [_ ->]]]].
    rewrite Hq in Hq'. injection Hq' as <-. apply answer_loop_length.
  - intros faq Hfaq. eexists. split.
    + apply (main_returns py_str py_int cut_for_search bm25_argsort
               fs question_path source_path Hq Hfaq).
    + apply answer_loop_length.
Qed.

(** C8: the answers list [main] writes is, in the order of the
    questions, one entry per question whose retrieval succeeded; so the
    entries of two such questions stand in the order of the questions. *)
Theorem main_preserves_question_order fs question_path source_path
    questions faq :
  questions_file fs question_path = Some questions ->
  load_faq py_int fs source_path = Returns faq ->
  let ins := insurance fs source_path in
  let fin := finance fs source_path in
  run fs question_path source_path =
    Returns (Some (yields ins fin faq questions)) /\
  forall l1 q1 l2 q2 l3 r1 r2,
    questions = l1 ++ q1 :: l2 ++ q2 :: l3 ->
    retrieved_of (dispatch_on ins fin faq q1) = Some r1 ->
    retrieved_of (dispatch_on ins fin faq q2) = Some r2 ->
    yields ins fin faq questions =
      yields ins fin faq l1
      ++ {| answer_qid := qid q1; retrieve := r1 |}
      :: yields ins fin faq l2
      ++ {| answer_qid := qid q2; retrieve := r2 |}
      :: yields ins fin faq l3.
Proof.
  intros Hq Hfaq ins fin. split.
  - rewrite <- answer_loop_flat_map.
    apply (main_returns py_str py_int cut_for_search bm25_argsort
             fs question_path source_path Hq Hfaq).
  - intros l1 q1 l2 q2 l3 r1 r2 -> H1 H2.
    rewrite flat_map_app. simpl. rewrite flat_map_app. simpl.
    unfold answers_of at 2 4. rewrite H1, H2. reflexivity.
Qed.

(** C10: for a question of category faq, the mapping handed to
    [BM25_retrieve] has as keys the FAQ keys that are candidates of the
    question, and any id retrieved is one of the candidates. *)
Theorem faq_retrieval_within_candidates ins fin faq q :
  category q = lit "faq" ->
  (forall k, In k (dict_keys (corpus_dict_faq py_str faq (source q))) <->
             In k (dict_keys faq) /\ In k (source q)) /\
  (forall r, dispatch_on ins fin faq q = Retrieved (Some r) ->
             In r (source q)).
Proof.
  intros Hcat. split.
  - intros k. apply corpus_dict_faq_keys.
  - intros r. unfold dispatch. rewrite Hcat. simpl.
    intros [= Hr]. apply BM25_retrieve_key in Hr.
    now apply corpus_dict_faq_keys in Hr.
Qed.
End DriverProperties.

(** ** The concrete world: runs and instances *)

Module DemoFacts.
Import Demo.

Lemma insert_desc_perm (score : nat -> nat) (i : nat) (l : list nat) :
  Permutation (insert_desc score i l) (i :: l).
Proof.
  induction l as [|j l IH]; simpl; [reflexivity|].
  destruct (Nat.ltb (score j) (score i)); [reflexivity|].
  rewrite IH. apply perm_swap.
Qed.

Lemma overlap_argsort_perm (corpus : list (list str)) (query : list str) :
  Permutation (overlap_argsort corpus query) (seq 0 (List.length corpus)).
Proof.
  unfold overlap_argsort. generalize (seq 0 (List.length corpus)).
  intros l. induction l as [|i l IH]; simpl; [reflexivity|].
  rewrite insert_desc_perm. now constructor.
Qed.

Example load_finance :
  load_data int_ascii fs (lit "./reference/finance") = Returns finance_corpus.
Proof. vm_compute. reflexivity. Qed.

Example load_faq_demo :
  load_faq int_ascii fs (lit "./reference") = Returns faq_dict.
Proof. vm_compute. reflexivity. Qed.

Example main_demo :
  main (fun v : str => v) int_ascii cut_chars overlap_argsort fs
       (lit "questions.json") (lit "./reference") =
  Returns (Some [ {| answer_qid := 1; retrieve := 3 |};
                  {| answer_qid := 4; retrieve := 7 |} ]).
Proof. vm_compute. reflexivity. Qed.

Example main_no_question_file :
  main (fun v : str => v) int_ascii cut_chars overlap_argsort fs
       (lit "missing.json") (lit "./reference") = Returns None.
Proof. vm_compute. reflexivity. Qed.

Example strip_demo : strip (lit "  a b  ") = lit "a b".
Proof. vm_compute. reflexivity. Qed.

Example replace_demo : replace (lit "1.pdf.pdf") (lit ".pdf") [] = lit "1".
Proof. vm_compute. reflexivity. Qed.

End DemoFacts.

(** ** The theorems at work on the concrete world *)

(** C6 at the missing insurance directory. *)
Lemma load_data_missing_directory_witness :
  listdir Demo.fs (lit "./reference/insurance") = Raises FileNotFoundError /\
  load_data Demo.int_ascii Demo.fs (lit "./reference/insurance")
  = Returns dict_empty.
Proof.
  split; [reflexivity|].
  apply load_data_missing_directory. reflexivity.
Defined.

(** C7 as stated fails: in ./reference/mixed only 1.pdf is unreadable,
    2.pdf reads as "policy", yet the mapping comes back empty, so the
    text of 2.pdf is not loaded; the name notes.pdf is not an integer. *)
Lemma load_data_loses_other_files :
  listdir Demo.fs (lit "./reference/mixed")
    = Returns [lit "1.pdf"; lit "2.pdf"; lit "notes.pdf"] /\
  unreadable Demo.fs (lit "./reference/mixed/1.pdf") = true /\
  unreadable Demo.fs (lit "./reference/mixed/2.pdf") = false /\
  unreadable Demo.fs (lit "./reference/mixed/notes.pdf") = false /\
  pages_text Demo.fs (lit "./reference/mixed/2.pdf") = lit "policy" /\
  Demo.int_ascii (replace (lit "2.pdf") (lit ".pdf") []) = Some 2%Z /\
  load_data Demo.int_ascii Demo.fs (lit "./reference/mixed")
    = Returns dict_empty /\
  ~ (exists d,
       load_data Demo.int_ascii Demo.fs (lit "./reference/mixed") = Returns d
       /\ dict_lookup d 2 = Some (lit "policy")).
Proof.
  repeat (split; [vm_compute; reflexivity|]).
  intros [d [Hd Hl]].
  assert (E : load_data Demo.int_ascii Demo.fs (lit "./reference/mixed")
              = Returns dict_empty) by (vm_compute; reflexivity).
  rewrite E in Hd. injection Hd as <-. discriminate.
Qed.

(** C7, amended, at the finance directory, where 2.pdf cannot be opened. *)
Lemma load_data_isolates_bad_file_witness :
  let names := [lit "1.pdf"; lit "2.pdf"; lit "3.pdf"; lit "notes.txt"] in
  let dir := lit "./reference/finance" in
  listdir Demo.fs dir = Returns names /\
  (forall f, In f (pdf_files names) ->
             Demo.int_ascii (replace f (lit ".pdf") []) <> None) /\
  In (lit "2.pdf") (pdf_files names) /\
  unreadable Demo.fs (path_join dir (lit "2.pdf")) = true /\
  exists d,
    load_data Demo.int_ascii Demo.fs dir = Returns d /\
    (forall l1 l2, pdf_files names = l1 ++ lit "2.pdf" :: l2 ->
       ~ In (file_key Demo.int_ascii (lit "2.pdf"))
            (map (file_key Demo.int_ascii) l2) ->
       dict_lookup d (file_key Demo.int_ascii (lit "2.pdf")) = Some []) /\
    (forall l1 f l2, pdf_files names = l1 ++ f :: l2 ->
       ~ In (file_key Demo.int_ascii f) (map (file_key Demo.int_ascii) l2) ->
       unreadable Demo.fs (path_join dir f) = false ->
       dict_lookup d (file_key Demo.int_ascii f) =
       Some (pages_text Demo.fs (path_join dir f))).
Proof.
  intros names dir.
  assert (H1 : listdir Demo.fs dir = Returns names) by reflexivity.
  assert (H2 : forall f, In f (pdf_files names) ->
                 Demo.int_ascii (replace f (lit ".pdf") []) <> None).
  { intros f [<-|[<-|[<-|[]]]]; vm_compute; discriminate. }
  assert (H3 : In (lit "2.pdf") (pdf_files names)) by (right; now left).
  assert (H4 : unreadable Demo.fs (path_join dir (lit "2.pdf")) = true)
    by reflexivity.
  refine (conj H1 (conj H2 (conj H3 (conj H4 _)))).
  exact (@load_data_isolates_bad_file str Demo.int_ascii Demo.fs dir names
           (lit "2.pdf") H1 H2 H3 H4).
Defined.

(** C2 at the finance corpus: candidate 2 has an empty text, candidate
    5 is not a key. *)
Lemma BM25_retrieve_no_valid_document_witness :
  (forall f, In f [2%Z; 5%Z] ->
     dict_lookup Demo.finance_corpus f = None \/
     exists t, dict_lookup Demo.finance_corpus f = Some t /\ blank t = true) /\
  BM25_retrieve Demo.cut_chars Demo.overlap_argsort (lit "dividend")
                [2%Z; 5%Z] Demo.finance_corpus = None.
Proof.
  assert (H : forall f, In f [2%Z; 5%Z] ->
     dict_lookup Demo.finance_corpus f = None \/
     exists t, dict_lookup Demo.finance_corpus f = Some t /\ blank t = true).
  { intros f [<-|[<-|[]]].
    - right. exists []. split; reflexivity.
    - left. reflexivity. }
  split; [exact H|].
  apply BM25_retrieve_no_valid_document. exact H.
Defined.

(** C9 at the finance corpus with candidates 1 and 3. *)
Lemma BM25_retrieve_returns_id_witness :
  (exists f t, In f [1%Z; 3%Z] /\ dict_lookup Demo.finance_corpus f = Some t
               /\ blank t = false) /\
  exists r, BM25_retrieve Demo.cut_chars Demo.overlap_argsort (lit "dividend")
                          [1%Z; 3%Z] Demo.finance_corpus = Some r.
Proof.
  assert (H : exists f t, In f [1%Z; 3%Z]
                /\ dict_lookup Demo.finance_corpus f = Some t
                /\ blank t = false).
  { exists 3%Z, (lit "annual report dividend").
    split; [right; now left | split; reflexivity]. }
  split; [exact H|].
  apply BM25_retrieve_returns_id;
    [exact DemoFacts.overlap_argsort_perm | exact H].
Defined.

(** C5 at the twin ids 1 and 2. *)
Lemma BM25_retrieve_duplicate_texts_witness :
  dict_wf Demo.twins /\
  dict_lookup Demo.twins 1 = Some (lit "premium") /\
  dict_lookup Demo.twins 2 = Some (lit "premium") /\
  top_1 Demo.cut_chars Demo.overlap_argsort (lit "premium")
        (filtered_corpus [1%Z; 2%Z] Demo.twins) = [lit "premium"] /\
  exists r,
    BM25_retrieve Demo.cut_chars Demo.overlap_argsort (lit "premium")
                  [1%Z; 2%Z] Demo.twins = Some r /\
    dict_lookup Demo.twins r = Some (lit "premium") /\
    exists before after,
      dict_items Demo.twins = before ++ (r, lit "premium") :: after /\
      forall kv, In kv before -> snd kv <> lit "premium".
Proof.
  assert (Hwf : dict_wf Demo.twins).
  { unfold dict_wf. simpl. constructor.
    - intros [H|[]]. discriminate.
    - constructor; [intros [] | constructor]. }
  assert (Hne : 1%Z <> 2%Z) by discriminate.
  assert (H1 : dict_lookup Demo.twins 1 = Some (lit "premium"))
    by reflexivity.
  assert (H2 : dict_lookup Demo.twins 2 = Some (lit "premium"))
    by reflexivity.
  assert (Htop : top_1 Demo.cut_chars Demo.overlap_argsort (lit "premium")
                   (filtered_corpus [1%Z; 2%Z] Demo.twins) = [lit "premium"])
    by (vm_compute; reflexivity).
  refine (conj Hwf (conj H1 (conj H2 (conj Htop _)))).
  exact (@BM25_retrieve_duplicate_texts Demo.cut_chars Demo.overlap_argsort
           DemoFacts.overlap_argsort_perm (lit "premium") [1%Z; 2%Z]
           Demo.twins 1%Z 2%Z (lit "premium") Hwf Hne H1 H2 Htop).
Defined.

(** The evaluation for C1 with the overlap ranker. *)
Lemma BM25_retrieve_leaves_candidate_set_witness :
  BM25_retrieve Demo.cut_chars Demo.overlap_argsort (lit "premium")
                [2%Z] Demo.twins = Some 1%Z /\
  ~ In 1%Z [2%Z].
Proof.
  pose proof (@BM25_retrieve_leaves_candidate_set Demo.cut_chars
                Demo.overlap_argsort DemoFacts.overlap_argsort_perm
                (lit "premium")) as H.
  split; apply H.
Defined.

(** C3 as stated fails: in repeated.json the second question has the
    unknown category law and qid 1, and qid 1 is in the written answers,
    as the qid of the first question. *)
Lemma unknown_category_qid_in_answers :
  questions_file Demo.fs (lit "repeated.json")
    = Some [Demo.q_finance; Demo.q_law_1] /\
  known_category (category Demo.q_law_1) = false /\
  main (fun v : str => v) Demo.int_ascii Demo.cut_chars Demo.overlap_argsort
       Demo.fs (lit "repeated.json") (lit "./reference")
    = Returns (Some [ {| answer_qid := 1; retrieve := 3 |} ]) /\
  In (qid Demo.q_law_1)
     (map answer_qid [ {| answer_qid := 1; retrieve := 3 |} ]).
Proof.
  split; [reflexivity|]. split; [reflexivity|].
  split; [vm_compute; reflexivity|].
  left. reflexivity.
Qed.

(** C3, amended, at questions.json, whose third question is of category
    law. *)
Lemma main_skips_unknown_category_witness :
  questions_file Demo.fs (lit "questions.json")
    = Some ([Demo.q_finance; Demo.q_insurance] ++ Demo.q_law :: [Demo.q_faq])
  /\ known_category (category Demo.q_law) = false
  /\ load_faq Demo.int_ascii Demo.fs (lit "./reference")
     = Returns Demo.faq_dict
  /\ exists answers,
       main (fun v : str => v) Demo.int_ascii Demo.cut_chars
            Demo.overlap_argsort Demo.fs (lit "questions.json")
            (lit "./reference") = Returns (Some answers) /\
       answers =
         answer_loop (fun v : str => v) Demo.cut_chars Demo.overlap_argsort
           (loaded Demo.int_ascii Demo.fs
                   (path_join (lit "./reference") (lit "insurance")))
           (loaded Demo.int_ascii Demo.fs
                   (path_join (lit "./reference") (lit "finance")))
           Demo.faq_dict
           ([Demo.q_finance; Demo.q_insurance] ++ [Demo.q_faq]) /\
       forall a, In a answers -> answer_qid a = qid Demo.q_law ->
         exists q', In q' ([Demo.q_finance; Demo.q_insurance] ++ [Demo.q_faq])
                    /\ qid q' = qid Demo.q_law
                    /\ known_category (category q') = true.
Proof.
  assert (H1 : questions_file Demo.fs (lit "questions.json")
    = Some ([Demo.q_finance; Demo.q_insurance] ++ Demo.q_law :: [Demo.q_faq]))
    by reflexivity.
  assert (H2 : known_category (category Demo.q_law) = false) by reflexivity.
  assert (H3 : load_faq Demo.int_ascii Demo.fs (lit "./reference")
               = Returns Demo.faq_dict) by (vm_compute; reflexivity).
  refine (conj H1 (conj H2 (conj H3 _))).
  exact (@main_skips_unknown_category str (fun v : str => v) Demo.int_ascii
           Demo.cut_chars Demo.overlap_argsort Demo.fs (lit "questions.json")
           (lit "./reference") [Demo.q_finance; Demo.q_insurance] Demo.q_law
           [Demo.q_faq] Demo.faq_dict H1 H2 H3).
Defined.

(** C4 at questions.json: four questions, at most four answers. *)
Lemma main_answer_count_witness :
  questions_file Demo.fs (lit "questions.json")
    = Some [Demo.q_finance; Demo.q_insurance; Demo.q_law; Demo.q_faq] /\
  (forall answers,
     main (fun v : str => v) Demo.int_ascii Demo.cut_chars
          Demo.overlap_argsort Demo.fs (lit "questions.json")
          (lit "./reference") = Returns (Some answers) ->
     List.length answers <= 4) /\
  (forall faq,
     load_faq Demo.int_ascii Demo.fs (lit "./reference") = Returns faq ->
     exists answers,
       main (fun v : str => v) Demo.int_ascii Demo.cut_chars
            Demo.overlap_argsort Demo.fs (lit "questions.json")
            (lit "./reference") = Returns (Some answers) /\
       List.length answers <= 4).
Proof.
  assert (H1 : questions_file Demo.fs (lit "questions.json")
    = Some [Demo.q_finance; Demo.q_insurance; Demo.q_law; Demo.q_faq])
    by reflexivity.
  split; [exact H1|].
  exact (@main_answer_count str (fun v : str => v) Demo.int_ascii
           Demo.cut_chars Demo.overlap_argsort Demo.fs (lit "questions.json")
           (lit "./reference") _ H1).
Defined.

(** C8 at questions.json: the answer of question 1 comes before the
    answer of question 4. *)
Lemma main_preserves_question_order_witness :
  questions_file Demo.fs (lit "questions.json")
    = Some [Demo.q_finance; Demo.q_insurance; Demo.q_law; Demo.q_faq] /\
  load_faq Demo.int_ascii Demo.fs (lit "./reference")
    = Returns Demo.faq_dict /\
  main (fun v : str => v) Demo.int_ascii Demo.cut_chars Demo.overlap_argsort
       Demo.fs (lit "questions.json") (lit "./reference")
    = Returns (Some [ {| answer_qid := 1; retrieve := 3 |};
                      {| answer_qid := 4; retrieve := 7 |} ]).
Proof.
  assert (H1 : questions_file Demo.fs (lit "questions.json")
    = Some [Demo.q_finance; Demo.q_insurance; Demo.q_law; Demo.q_faq])
    by reflexivity.
  assert (H2 : load_faq Demo.int_ascii Demo.fs (lit "./reference")
               = Returns Demo.faq_dict) by (vm_compute; reflexivity).
  refine (conj H1 (conj H2 _)).
  destruct (@main_preserves_question_order str (fun v : str => v)
              Demo.int_ascii Demo.cut_chars Demo.overlap_argsort Demo.fs
              (lit "questions.json") (lit "./reference") _ _ H1 H2)
    as [Hrun _].
  rewrite Hrun. vm_compute. reflexivity.
Defined.

(** C10 at the faq question, with candidates 7 and 8. *)
Lemma faq_retrieval_within_candidates_witness :
  category Demo.q_faq = lit "faq" /\
  (forall k,
     In k (dict_keys (corpus_dict_faq (fun v : str => v) Demo.faq_dict
                                      (source Demo.q_faq))) <->
     In k (dict_keys Demo.faq_dict) /\ In k (source Demo.q_faq)) /\
  (forall r,
     dispatch (fun v : str => v) Demo.cut_chars Demo.overlap_argsort
              dict_empty Demo.finance_corpus Demo.faq_dict Demo.q_faq
       = Retrieved (Some r) ->
     In r (source Demo.q_faq)).
Proof.
  assert (H1 : category Demo.q_faq = lit "faq") by reflexivity.
  split; [exact H1|].
  exact (@faq_retrieval_within_candidates str (fun v : str => v)
           Demo.cut_chars Demo.overlap_argsort dict_empty
           Demo.finance_corpus Demo.faq_dict Demo.q_faq H1).
Defined.

(** * Further properties of the script *)

Unset Implicit Arguments.

(** ** Corpus loader *)

Lemma startswith_app (x y : str) : startswith (x ++ y) x = true.
Proof.
  induction x as [|c x IH]; simpl; [now destruct y|].
  now rewrite N.eqb_refl.
Qed.

Lemma endswith_app (x y : str) : endswith (x ++ y) y = true.
Proof. unfold endswith. rewrite rev_app_distr. apply startswith_app. Qed.

(** Removing the extension from a name without a dot before it. *)
Lemma replace_stem (stem : str) :
  ~ In 46%N stem -> replace (stem ++ lit ".pdf") (lit ".pdf") [] = stem.
Proof.
  unfold replace. change (lit ".pdf") with [46; 112; 100; 102]%N.
  induction stem as [|c stem IH]; intros Hdot.
  - reflexivity.
  - assert (Hc : (c =? 46)%N = false).
    { apply N.eqb_neq. intros ->. apply Hdot. now left. }
    simpl. rewrite Hc. simpl. f_equal. apply IH.
    intros Hin. apply Hdot. now right.
Qed.

Lemma load_data_listdir_raises (J : Type) (py_int : str -> option Z)
    (fs : filesystem J) (source_path : str) (e : exn) :
  listdir fs source_path = Raises e ->
  load_data py_int fs source_path = Returns dict_empty.
Proof.
  intros H. unfold load_data. rewrite H. simpl. now destruct e.
Qed.

Section LoaderExtras.
Variable J : Type.
Variable py_int : str -> option Z.
Implicit Types (fs : filesystem J) (p f : str).

(** X1: [read_pdf] never raises, and it is all or nothing: when the
    file does not open or one of its pages fails to extract it returns
    the empty string, whatever the other pages hold; otherwise it returns
    the texts of the pages joined, a page without text counting as
    empty. *)
Theorem read_pdf_all_or_nothing fs p :
  read_pdf fs p = Returns (if unreadable fs p then [] else pages_text fs p).
Proof.
  rewrite read_pdf_returns. f_equal.
  destruct (unreadable fs p) eqn:Hu.
  - now apply pdf_text_unreadable.
  - now apply pdf_text_readable.
Qed.

(** X2: when [load_data] comes back empty.  It returns the empty
    mapping exactly in three cases: [os.listdir] raised (whatever the
    exception), the directory has no name ending in .pdf, or the name of
    one PDF, with the extension removed, is not an integer; in the last
    case the texts of all the files are dropped. *)
Theorem load_data_empty_iff fs source_path :
  load_data py_int fs source_path = Returns dict_empty <->
  (exists e, listdir fs source_path = Raises e) \/
  (exists names,
     listdir fs source_path = Returns names /\
     (pdf_files names = [] \/
      exists f, In f (pdf_files names) /\
                py_int (replace f (lit ".pdf") []) = None)).
Proof.
  split.
  - intros Hload.
    destruct (listdir fs source_path) as [names|e] eqn:Hls;
      [right | left; now exists e].
    exists names. split; [reflexivity|].
    destruct (forallb (fun f => match py_int (replace f (lit ".pdf") []) with
                                | Some _ => true
                                | None => false
                                end) (pdf_files names)) eqn:Hall.
    + left.
      assert (Hnames : forall f, In f (pdf_files names) ->
                py_int (replace f (lit ".pdf") []) <> None).
      { intros f Hin. rewrite forallb_forall in Hall.
        specialize (Hall f Hin).
        destruct (py_int (replace f (lit ".pdf") [])); congruence. }
      rewrite (@load_data_pairs J py_int fs source_path names Hls Hnames)
        in Hload.
      injection Hload as Hd.
      destruct (pdf_files names) as [|f0 rest]; [reflexivity|].
      exfalso.
      assert (Hk : In (file_key py_int f0) (dict_keys (@dict_empty str))).
      { rewrite <- Hd. apply dict_of_pairs_keys. simpl. now left. }
      destruct Hk.
    + right.
      assert (Hex : existsb (fun f => negb
                       match py_int (replace f (lit ".pdf") []) with
                       | Some _ => true
                       | None => false
                       end) (pdf_files names) = true).
      { clear Hload. induction (pdf_files names) as [|f l IH]; simpl in *;
          [discriminate|].
        destruct (py_int (replace f (lit ".pdf") [])); simpl in *;
          [now apply IH | reflexivity]. }
      apply existsb_exists in Hex as [f [Hin Hbad]].
      exists f. split; [exact Hin|].
      destruct (py_int (replace f (lit ".pdf") [])); [discriminate|].
      reflexivity.
  - intros [[e He]|[names [Hls [Hnil|[f [Hin Hbad]]]]]].
    + exact (load_data_listdir_raises J py_int fs source_path e He).
    + unfold load_data. rewrite Hls. simpl. now rewrite Hnil.
    + exact (@load_data_bad_name J py_int fs source_path names f
               Hls Hin Hbad).
Qed.

(** X3: when every PDF name is an integer, the keys of the mapping
    [load_data] returns are the ids of the files whose name ends in
    .pdf, each once; the other files of the directory add no key. *)
Theorem load_data_keys fs source_path names :
  listdir fs source_path = Returns names ->
  (forall f, In f (pdf_files names) ->
             py_int (replace f (lit ".pdf") []) <> None) ->
  exists d,
    load_data py_int fs source_path = Returns d /\
    dict_wf d /\
    forall k, In k (dict_keys d) <->
      exists f, In f names /\ endswith f (lit ".pdf") = true /\
                py_int (replace f (lit ".pdf") []) = Some k.
Proof.
  intros Hls Hnames. eexists. split; [|split].
  - apply (load_data_pairs py_int fs source_path Hls Hnames).
  - apply dict_of_pairs_wf.
  - intros k. rewrite dict_of_pairs_keys, map_map. simpl.
    rewrite in_map_iff. unfold pdf_files. split.
    + intros [f [Hk Hin]]. pose proof (Hnames f Hin) as Hp.
      apply filter_In in Hin as [Hin Hpdf].
      exists f. repeat split; try assumption.
      unfold file_key in Hk.
      destruct (py_int (replace f (lit ".pdf") [])); congruence.
    + intros [f [Hin [Hpdf Hk]]]. exists f. split.
      * unfold file_key. now rewrite Hk.
      * apply filter_In. now split.
Qed.

(** X4: a name made of a stem without a dot followed by .pdf passes the
    extension filter, and its id is [int] of the stem. *)
Theorem file_id_of_stem (stem : str) :
  ~ In 46%N stem ->
  endswith (stem ++ lit ".pdf") (lit ".pdf") = true /\
  file_id py_int (stem ++ lit ".pdf") = int_of py_int stem.
Proof.
  intros Hdot. split; [apply endswith_app|].
  unfold file_id. now rewrite replace_stem.
Qed.
End LoaderExtras.

(** ** Retriever *)

Lemma filtered_corpus_valid (source : list Z) (corpus_dict : dict str) :
  filtered_corpus (filter (valid_candidate corpus_dict) source) corpus_dict
  = filtered_corpus source corpus_dict.
Proof.
  unfold filtered_corpus, valid_candidate.
  induction source as [|f source IH]; simpl; [reflexivity|].
  destruct (truthy (strip (dict_get corpus_dict f []))) eqn:Hv; simpl.
  - rewrite Hv. now f_equal.
  - exact IH.
Qed.

Lemma filtered_corpus_nil (source : list Z) (corpus_dict : dict str) :
  filtered_corpus source corpus_dict = [] <->
  existsb (valid_candidate corpus_dict) source = false.
Proof.
  unfold filtered_corpus, valid_candidate.
  induction source as [|f source IH]; simpl; [tauto|].
  destruct (truthy (strip (dict_get corpus_dict f []))); simpl.
  - split; discriminate.
  - exact IH.
Qed.

Lemma BM25_retrieve_empty_corpus cut_for_search bm25_argsort qs source :
  BM25_retrieve cut_for_search bm25_argsort qs source dict_empty = None.
Proof.
  unfold BM25_retrieve.
  assert (E : filtered_corpus source dict_empty = []).
  { apply filtered_corpus_nil. induction source; simpl; auto. }
  now rewrite E.
Qed.

Section RetrieverExtras.
Variable cut_for_search : str -> list str.
Variable bm25_argsort : list (list str) -> list str -> list nat.
Hypothesis bm25_argsort_perm : forall corpus tokenized_query,
  Permutation (bm25_argsort corpus tokenized_query)
              (seq 0 (List.length corpus)).

Implicit Types (qs : str) (source : list Z) (corpus_dict : dict str).

Local Abbreviation retrieve_id := (BM25_retrieve cut_for_search bm25_argsort).
Local Abbreviation winner := (top_1 cut_for_search bm25_argsort).

(** The top 1 is a single text of the filtered corpus. *)
Lemma winner_of_filtered qs source corpus_dict :
  filtered_corpus source corpus_dict <> [] ->
  exists w, winner qs (filtered_corpus source corpus_dict) = [w] /\
            In w (filtered_corpus source corpus_dict).
Proof.
  intros Hne.
  exact (@top_1_winner cut_for_search bm25_argsort bm25_argsort_perm
           qs _ Hne).
Qed.

(** An id comes back as soon as one candidate counts. *)
Lemma BM25_retrieve_nonempty qs source corpus_dict :
  filtered_corpus source corpus_dict <> [] ->
  exists r, retrieve_id qs source corpus_dict = Some r.
Proof.
  intros Hne.
  destruct (winner_of_filtered qs source corpus_dict Hne) as [w [Htop Hw]].
  apply filtered_corpus_In in Hw as [f [_ [Hl _]]].
  apply dict_lookup_In in Hl.
  apply (@BM25_retrieve_finds cut_for_search bm25_argsort qs source
           corpus_dict f w Hne); [|exact Hl].
  rewrite Htop. now left.
Qed.

Lemma BM25_retrieve_filtered_nonempty qs source corpus_dict r :
  retrieve_id qs source corpus_dict = Some r ->
  filtered_corpus source corpus_dict <> [].
Proof.
  unfold BM25_retrieve. intros H E. rewrite E in H. discriminate.
Qed.

(** X5: an id [BM25_retrieve] returns is a key of the mapping it was
    given, whatever the segmenter and the ranker do. *)
Theorem BM25_retrieve_returns_key qs source corpus_dict r :
  retrieve_id qs source corpus_dict = Some r ->
  In r (dict_keys corpus_dict).
Proof. apply BM25_retrieve_key. Qed.

(** X6: the id [BM25_retrieve] returns has the text of a candidate: some
    candidate id maps to the very text the returned id maps to, and that
    text is not blank. *)
Theorem BM25_retrieve_text_of_candidate qs source corpus_dict r :
  dict_wf corpus_dict ->
  retrieve_id qs source corpus_dict = Some r ->
  exists f t,
    In f source /\ dict_lookup corpus_dict f = Some t /\
    blank t = false /\ dict_lookup corpus_dict r = Some t.
Proof.
  intros Hwf Hr.
  destruct (@BM25_retrieve_Some cut_for_search bm25_argsort qs source
              corpus_dict r Hr) as [l1 [w [l2 [E [Hw _]]]]].
  pose proof (BM25_retrieve_filtered_nonempty qs source corpus_dict r Hr)
    as Hne.
  destruct (winner_of_filtered qs source corpus_dict Hne) as [w' [Htop Hw']].
  rewrite Htop in Hw. destruct Hw as [<-|[]].
  apply filtered_corpus_In in Hw' as [f [Hs [Hl Hb]]].
  exists f, w'. repeat split; try assumption.
  apply In_dict_lookup; [exact Hwf|].
  rewrite E. apply in_or_app. right. now left.
Qed.

(** X7: in a mapping where no two ids have the same non-blank text, the
    id [BM25_retrieve] returns is one of the candidates. *)
Theorem BM25_retrieve_candidate_when_texts_differ qs source corpus_dict r :
  (forall k1 k2 t, In (k1, t) corpus_dict -> In (k2, t) corpus_dict ->
                   blank t = false -> k1 = k2) ->
  retrieve_id qs source corpus_dict = Some r ->
  In r source.
Proof.
  intros Hinj Hr.
  exact (@BM25_retrieve_in_source_distinct_texts cut_for_search bm25_argsort
           bm25_argsort_perm qs source corpus_dict r Hinj Hr).
Qed.

(** X8: candidates that are not keys of the mapping, or whose text is
    blank, have no part in the result: dropping them from the candidate
    list leaves the returned id the same. *)
Theorem BM25_retrieve_ignores_invalid_candidates qs source corpus_dict :
  retrieve_id qs (filter (valid_candidate corpus_dict) source) corpus_dict
  = retrieve_id qs source corpus_dict.
Proof.
  unfold BM25_retrieve. now rewrite filtered_corpus_valid.
Qed.

(** X9: when the candidates that count all carry one text [t], the
    result depends neither on the query nor on the scores: it is the
    first id of the mapping whose text is [t]. *)
Theorem BM25_retrieve_single_text qs source corpus_dict t :
  filtered_corpus source corpus_dict <> [] ->
  (forall x, In x (filtered_corpus source corpus_dict) -> x = t) ->
  (exists r before after,
     retrieve_id qs source corpus_dict = Some r /\
     dict_items corpus_dict = before ++ (r, t) :: after /\
     forall kv, In kv before -> snd kv <> t) /\
  forall qs', retrieve_id qs' source corpus_dict
              = retrieve_id qs source corpus_dict.
Proof.
  intros Hne Hall.
  assert (Htop : forall q, winner q (filtered_corpus source corpus_dict)
                           = [t]).
  { intros q. destruct (winner_of_filtered q source corpus_dict Hne) as [w [Hw Hin]].
    now rewrite Hw, (Hall w Hin). }
  split.
  - destruct (BM25_retrieve_nonempty qs source corpus_dict Hne) as [r Hr].
    destruct (@BM25_retrieve_Some cut_for_search bm25_argsort qs source
                corpus_dict r Hr) as [l1 [w [l2 [E [Hw Hl1]]]]].
    rewrite Htop in Hw. destruct Hw as [<-|[]].
    exists r, l1, l2. repeat split; try assumption.
    intros kv Hin Heq. apply (Hl1 kv Hin). rewrite Htop. now left.
  - intros qs'. unfold BM25_retrieve.
    destruct (filtered_corpus source corpus_dict) as [|d0 ds] eqn:Hf;
      [reflexivity|].
    now rewrite !Htop.
Qed.
End RetrieverExtras.

(** ** Driver *)

Lemma map_outcome_raises_inv (A B : Type) (f : A -> outcome B) (l : list A)
    (e : exn) :
  map_outcome f l = Raises e -> exists a, In a l /\ f a = Raises e.
Proof.
  induction l as [|a l IH]; simpl; [discriminate|].
  destruct (f a) as [b|e'] eqn:Hf; simpl.
  - destruct (map_outcome f l) as [bs|e'']; simpl; [discriminate|].
    intros [= ->]. destruct (IH eq_refl) as [a' [Hin Ha']].
    exists a'. split; [now right | exact Ha'].
  - intros [= ->]. exists a. split; [now left | exact Hf].
Qed.

(** Dropping the elements that yield nothing leaves a [flat_map] as it
    is. *)
Lemma flat_map_filter (A B : Type) (f : A -> list B) (keep : A -> bool)
    (l : list A) :
  (forall a, In a l -> keep a = false -> f a = []) ->
  flat_map f l = flat_map f (filter keep l).
Proof.
  induction l as [|a l IH]; simpl; intros H; [reflexivity|].
  rewrite IH by (intros b Hb; apply H; now right).
  destruct (keep a) eqn:Hk; simpl; [reflexivity|].
  now rewrite (H a (or_introl eq_refl) Hk).
Qed.

Section DriverExtras.
Variable J : Type.
Variable py_str : J -> str.
Variable py_int : str -> option Z.
Variable cut_for_search : str -> list str.
Variable bm25_argsort : list (list str) -> list str -> list nat.

Implicit Types (fs : filesystem J) (q : question) (faq : dict J).
Implicit Types (ins fin : dict str).

Local Abbreviation run := (main py_str py_int cut_for_search bm25_argsort).
Local Abbreviation dispatch_on :=
  (dispatch py_str cut_for_search bm25_argsort).
Local Abbreviation loop := (answer_loop py_str cut_for_search bm25_argsort).
Local Abbreviation retrieve_id := (BM25_retrieve cut_for_search bm25_argsort).
Local Abbreviation insurance fs source_path :=
  (loaded py_int fs (path_join source_path (lit "insurance"))).
Local Abbreviation finance fs source_path :=
  (loaded py_int fs (path_join source_path (lit "finance"))).
Local Abbreviation faq_path source_path :=
  (path_join (path_join source_path (lit "faq"))
             (lit "pid_map_content.json")).

(** The branches of [main], read through the mapping each one uses. *)
Lemma dispatch_category_corpus ins fin faq q :
  dispatch_on ins fin faq q =
  match category_corpus py_str ins fin faq q with
  | Some d => Retrieved (retrieve_id (query q) (source q) d)
  | None => Skipped
  end.
Proof.
  unfold dispatch, category_corpus.
  destruct (str_eqb (category q) (lit "finance")); [reflexivity|].
  destruct (str_eqb (category q) (lit "insurance")); [reflexivity|].
  destruct (str_eqb (category q) (lit "faq")); reflexivity.
Qed.

(** An entry of the answers carries the qid of its question. *)
Lemma answers_of_qid q (d : dispatched) a :
  In a (answers_of q d) ->
  answer_qid a = qid q /\ retrieved_of d = Some (retrieve a).
Proof.
  unfold answers_of. destruct (retrieved_of d) as [r|]; [|intros []].
  intros [<-|[]]. now split.
Qed.

Lemma qids_of_answers (f : question -> dispatched) (questions : list question)
    (x : Z) :
  In x (map answer_qid (flat_map (fun q => answers_of q (f q)) questions)) ->
  In x (map qid questions).
Proof.
  rewrite !in_map_iff. intros [a [<- Hin]].
  apply in_flat_map in Hin as [q [Hq Ha]].
  apply answers_of_qid in Ha as [Ha _]. now exists q.
Qed.

Lemma qids_of_answers_NoDup (f : question -> dispatched)
    (questions : list question) :
  NoDup (map qid questions) ->
  NoDup (map answer_qid (flat_map (fun q => answers_of q (f q)) questions)).
Proof.
  induction questions as [|q questions IH]; simpl; intros Hnd;
    [constructor|].
  inversion Hnd as [|? ? Hnotin Hnd']; subst.
  rewrite map_app. unfold answers_of at 1.
  destruct (retrieved_of (f q)) as [r|]; simpl; [|now apply IH].
  constructor; [|now apply IH].
  intros Hin. apply Hnotin. now apply (qids_of_answers f).
Qed.


(** X11: every entry [main] writes comes from a question of the input:
    its qid is the qid of a question whose category is known, and its
    retrieved id is a key of the mapping of that category. *)
Theorem main_answers_sound fs question_path source_path questions faq :
  questions_file fs question_path = Some questions ->
  load_faq py_int fs source_path = Returns faq ->
  exists answers,
    run fs question_path source_path = Returns (Some answers) /\
    forall a, In a answers ->
      exists q d,
        In q questions /\ answer_qid a = qid q /\
        category_corpus py_str (insurance fs source_path)
                        (finance fs source_path) faq q = Some d /\
        In (retrieve a) (dict_keys d).
Proof.
  intros Hq Hfaq. eexists. split.
  - exact (@main_returns J py_str py_int cut_for_search bm25_argsort
             fs question_path source_path questions faq Hq Hfaq).
  - intros a Hin. rewrite answer_loop_flat_map in Hin.
    apply in_flat_map in Hin as [q [Hqin Ha]].
    apply answers_of_qid in Ha as [Hqid Hr].
    rewrite dispatch_category_corpus in Hr.
    destruct (category_corpus py_str (insurance fs source_path)
                (finance fs source_path) faq q) as [d|] eqn:Hc;
      [|discriminate].
    exists q, d. repeat split; try assumption.
    simpl in Hr.
    destruct (retrieve_id (query q) (source q) d) as [r|] eqn:Hret;
      [|discriminate].
    injection Hr as <-.
    exact (BM25_retrieve_key cut_for_search bm25_argsort (query q)
             (source q) d Hret).
Qed.

(** X13: when the qids of the questions are pairwise distinct, so are
    the qids of the answers [main] writes. *)
Theorem main_answers_distinct_qids fs question_path source_path
    questions answers :
  questions_file fs question_path = Some questions ->
  NoDup (map qid questions) ->
  run fs question_path source_path = Returns (Some answers) ->
  NoDup (map answer_qid answers).
Proof.
  intros Hq Hnd Hrun.
  apply main_written in Hrun as [questions' [faq [Hq' [_ ->]]]].
  rewrite Hq in Hq'. injection Hq' as <-.
  rewrite answer_loop_flat_map.
  now apply qids_of_answers_NoDup.
Qed.

(** A question whose mapping is empty yields nothing. *)
Lemma answers_of_empty_corpus ins fin faq q :
  category_corpus py_str ins fin faq q = Some dict_empty ->
  answers_of q (dispatch_on ins fin faq q) = [].
Proof.
  intros H. rewrite dispatch_category_corpus, H.
  now rewrite BM25_retrieve_empty_corpus.
Qed.


(** X15: when the FAQ file is missing, [main] still writes, and it
    writes what it writes for the questions that are not of category
    faq. *)
Theorem main_missing_faq_file fs question_path source_path questions :
  questions_file fs question_path = Some questions ->
  faq_file fs (faq_path source_path) = None ->
  run fs question_path source_path =
  Returns (Some (loop (insurance fs source_path) (finance fs source_path)
                   dict_empty
                   (filter (fun q => negb (in_category "faq" q))
                           questions))).
Proof.
  intros Hq Hnone.
  assert (Hfaq : load_faq py_int fs source_path = Returns dict_empty)
    by (unfold load_faq; now rewrite Hnone).
  rewrite (@main_returns J py_str py_int cut_for_search bm25_argsort
             fs question_path source_path questions dict_empty Hq Hfaq).
  do 2 f_equal. rewrite !answer_loop_flat_map.
  apply flat_map_filter. intros q _ Hk.
  rewrite dispatch_category_corpus.
  apply negb_false_iff in Hk. unfold in_category in Hk.
  unfold category_corpus.
  destruct (str_eqb (category q) (lit "finance")) eqn:Hf.
  { apply str_eqb_eq in Hf. apply str_eqb_eq in Hk.
    rewrite Hf in Hk. discriminate. }
  destruct (str_eqb (category q) (lit "insurance")) eqn:Hi.
  { apply str_eqb_eq in Hi. apply str_eqb_eq in Hk.
    rewrite Hi in Hk. discriminate. }
  rewrite Hk.
  change (corpus_dict_faq py_str dict_empty (source q))
    with (@dict_empty str).
  now rewrite BM25_retrieve_empty_corpus.
Qed.
End DriverExtras.

Section AnsweredQuestions.
Variable J : Type.
Variable py_str : J -> str.
Variable py_int : str -> option Z.
Variable cut_for_search : str -> list str.
Variable bm25_argsort : list (list str) -> list str -> list nat.
Hypothesis bm25_argsort_perm : forall corpus tokenized_query,
  Permutation (bm25_argsort corpus tokenized_query)
              (seq 0 (List.length corpus)).

Implicit Types (fs : filesystem J) (q : question) (faq : dict J).
Implicit Types (ins fin : dict str).

Local Abbreviation run := (main py_str py_int cut_for_search bm25_argsort).
Local Abbreviation dispatch_on :=
  (dispatch py_str cut_for_search bm25_argsort).
Local Abbreviation insurance fs source_path :=
  (loaded py_int fs (path_join source_path (lit "insurance"))).
Local Abbreviation finance fs source_path :=
  (loaded py_int fs (path_join source_path (lit "finance"))).

(** A question yields an entry exactly when it can be answered. *)
Lemma answers_of_answerable ins fin faq q :
  map answer_qid (answers_of q (dispatch_on ins fin faq q)) =
  if answerable py_str ins fin faq q then [qid q] else [].
Proof.
  rewrite dispatch_category_corpus. unfold answerable.
  destruct (category_corpus py_str ins fin faq q) as [d|]; [|reflexivity].
  destruct (existsb (valid_candidate d) (source q)) eqn:Hv.
  - assert (Hne : filtered_corpus (source q) d <> []).
    { intros E. apply filtered_corpus_nil in E. congruence. }
    destruct (BM25_retrieve_nonempty cut_for_search bm25_argsort
                bm25_argsort_perm (query q) (source q) d Hne) as [r Hr].
    unfold answers_of. simpl. now rewrite Hr.
  - apply filtered_corpus_nil in Hv.
    unfold answers_of, BM25_retrieve. simpl. now rewrite Hv.
Qed.

(** X12: the qids of the answers [main] writes are, in order, the qids
    of the questions that can be answered: those of a known category
    with a candidate whose text, in the mapping of that category, is
    not blank.  The query plays no part in whether a question gets an
    answer. *)
Theorem main_answers_the_answerable fs question_path source_path
    questions faq :
  questions_file fs question_path = Some questions ->
  load_faq py_int fs source_path = Returns faq ->
  exists answers,
    run fs question_path source_path = Returns (Some answers) /\
    map answer_qid answers =
    map qid (filter (answerable py_str (insurance fs source_path)
                                (finance fs source_path) faq)
                    questions).
Proof.
  intros Hq Hfaq. eexists. split.
  - exact (@main_returns J py_str py_int cut_for_search bm25_argsort
             fs question_path source_path questions faq Hq Hfaq).
  - rewrite answer_loop_flat_map.
    induction questions as [|q qs IH] in |- *; simpl; [reflexivity|].
    rewrite map_app, answers_of_answerable.
    destruct (answerable py_str (insurance fs source_path)
                (finance fs source_path) faq q); simpl; now rewrite IH.
Qed.
End AnsweredQuestions.

(** ** Output directory *)

Lemma dropwhile_app_all (A : Type) (p : A -> bool) (l1 l2 : list A) :
  forallb p l1 = true -> dropwhile p (l1 ++ l2) = dropwhile p l2.
Proof.
  induction l1 as [|a l1 IH]; simpl; [reflexivity|].
  intros H. apply andb_true_iff in H as [Ha Hl]. rewrite Ha. now apply IH.
Qed.

Lemma no_sep_forallb (f : str) :
  ~ In 47%N f -> forallb (fun c => negb (is_sep c)) f = true.
Proof.
  intros H. apply forallb_forall. intros c Hc. unfold is_sep.
  apply negb_true_iff, N.eqb_neq. intros ->. contradiction.
Qed.

(** A path without a slash has no directory part. *)
Lemma dirname_bare (path : str) : ~ In 47%N path -> dirname path = [].
Proof.
  intros H. unfold dirname.
  assert (E : dropwhile (fun c => negb (is_sep c)) (rev path) = []).
  { rewrite <- (app_nil_r (rev path)). rewrite dropwhile_app_all;
      [reflexivity|].
    apply no_sep_forallb. intros Hin. apply H. now apply in_rev. }
  now rewrite E.
Qed.

(** [os.path.join] of a directory and a file name puts one slash
    between them. *)
Lemma path_join_plain (d f : str) :
  d <> [] -> endswith d (lit "/") = false -> ~ In 47%N f ->
  path_join d f = d ++ 47%N :: f.
Proof.
  intros Hd Hend Hf. unfold path_join. rewrite Hend.
  assert (Hs : startswith f (lit "/") = false).
  { change (lit "/") with [47%N].
    destruct f as [|x f]; [reflexivity|]. simpl.
    assert (Hx : (x =? 47)%N = false).
    { apply N.eqb_neq. intros ->. apply Hf. now left. }
    now rewrite Hx. }
  rewrite Hs.
  destruct d; [congruence|]. reflexivity.
Qed.

(** [os.path.dirname] undoes [os.path.join] with a file name. *)
Lemma dirname_path_join (d f : str) :
  d <> [] -> endswith d (lit "/") = false -> ~ In 47%N f ->
  dirname (path_join d f) = d.
Proof.
  intros Hd Hend Hf.
  rewrite (path_join_plain d f Hd Hend Hf).
  assert (Hlast : exists c r, rev d = c :: r /\ is_sep c = false).
  { unfold endswith in Hend. change (rev (lit "/")) with [47%N] in Hend.
    destruct (rev d) as [|c r] eqn:Hr.
    - exfalso. apply Hd. apply (f_equal (@rev _)) in Hr.
      now rewrite rev_involutive in Hr.
    - exists c, r. split; [reflexivity|]. simpl in Hend.
      unfold is_sep. destruct (c =? 47)%N; [|reflexivity].
      destruct r; discriminate. }
  destruct Hlast as [c [r [Hr Hc]]].
  unfold dirname.
  assert (Hhead : rev (dropwhile (fun c0 => negb (is_sep c0))
                         (rev (d ++ 47%N :: f))) = d ++ [47%N]).
  { rewrite rev_app_distr. simpl rev. rewrite <- app_assoc. simpl app.
    rewrite dropwhile_app_all
      by (apply no_sep_forallb; intros Hin; apply Hf; now apply in_rev).
    simpl. now rewrite rev_involutive. }
  rewrite Hhead.
  assert (Hall : forallb is_sep (d ++ [47%N]) = false).
  { rewrite <- (rev_involutive d), Hr. simpl.
    rewrite !forallb_app. simpl. rewrite Hc. simpl.
    now rewrite andb_false_r. }
  rewrite Hall.
  assert (Htr : truthy (d ++ [47%N]) = true) by (destruct d; [congruence | reflexivity]).
  rewrite Htr. simpl andb. cbv iota.
  rewrite rev_app_distr. simpl. rewrite Hr. simpl. rewrite Hc.
  rewrite <- Hr. apply rev_involutive.
Qed.

Section OutputDirectory.
Variable S : Type.
Variable os : os_calls S.
Implicit Types (st : S) (path d f : str).

(** X16: for an output path [os.path.join(d, f)], with [d] not empty
    and not ending in a slash and [f] a file name, [ensure_dir_exists]
    works on [d] itself: it leaves the tree alone when [d] exists and
    otherwise does what [os.makedirs(d)] does. *)
Theorem ensure_dir_exists_of_join st d f :
  d <> [] -> endswith d (lit "/") = false -> ~ In 47%N f ->
  ensure_dir_exists os st (path_join d f) =
  if path_exists os st d then Returns st else makedirs os st d.
Proof.
  intros Hd Hend Hf. unfold ensure_dir_exists.
  rewrite (dirname_path_join d f Hd Hend Hf).
  now destruct (path_exists os st d).
Qed.

(** X17: for an output path without a slash the directory is the empty
    string; nothing exists under that name, so [ensure_dir_exists] asks
    [os.makedirs] for it and raises what [os.makedirs] raises. *)
Theorem ensure_dir_exists_bare_name st path e :
  ~ In 47%N path ->
  path_exists os st [] = false ->
  makedirs os st [] = Raises e ->
  ensure_dir_exists os st path = Raises e.
Proof.
  intros Hp Hex Hmk. unfold ensure_dir_exists.
  now rewrite (dirname_bare path Hp), Hex.
Qed.

(** X18: where a directory exists once [os.makedirs] has made it,
    [ensure_dir_exists] can be repeated: after a call that returns, a
    second call returns too and leaves the tree as the first left it. *)
Theorem ensure_dir_exists_twice st st' path :
  (forall s d s', makedirs os s d = Returns s' -> path_exists os s' d = true) ->
  ensure_dir_exists os st path = Returns st' ->
  ensure_dir_exists os st' path = Returns st'.
Proof.
  intros Hpost. unfold ensure_dir_exists.
  destruct (path_exists os st (dirname path)) eqn:Hex; simpl.
  - intros [= <-]. now rewrite Hex.
  - intros Hmk. now rewrite (Hpost _ _ _ Hmk).
Qed.
End OutputDirectory.

(** ** The further properties at work on the concrete worlds *)

Example read_pdf_torn :
  read_pdf Demo2.fs_torn (lit "torn.pdf") = Returns [].
Proof. vm_compute. reflexivity. Qed.

Example ensure_dir_exists_demo :
  ensure_dir_exists Demo2.dirs [] (lit "./data/output/answers.json")
  = Returns [lit "./data/output"].
Proof. vm_compute. reflexivity. Qed.

(** X3 at the finance directory: keys 1, 2, 3 and none for notes.txt. *)
Lemma load_data_keys_witness :
  exists d,
    load_data Demo.int_ascii Demo.fs (lit "./reference/finance") = Returns d /\
    dict_wf d /\
    forall k, In k (dict_keys d) <->
      exists f,
        In f [lit "1.pdf"; lit "2.pdf"; lit "3.pdf"; lit "notes.txt"] /\
        endswith f (lit ".pdf") = true /\
        Demo.int_ascii (replace f (lit ".pdf") []) = Some k.
Proof.
  apply (load_data_keys str Demo.int_ascii Demo.fs
           (lit "./reference/finance")).
  - reflexivity.
  - intros f [<-|[<-|[<-|[]]]]; vm_compute; discriminate.
Defined.

(** X4 at the name 12.pdf. *)
Lemma file_id_of_stem_witness :
  endswith (lit "12" ++ lit ".pdf") (lit ".pdf") = true /\
  file_id Demo.int_ascii (lit "12" ++ lit ".pdf")
  = int_of Demo.int_ascii (lit "12").
Proof.
  apply (file_id_of_stem Demo.int_ascii (lit "12")).
  intros [H|[H|[]]]; discriminate.
Defined.

(** X5 at the finance corpus. *)
Lemma BM25_retrieve_returns_key_witness :
  In 3%Z (dict_keys Demo.finance_corpus).
Proof.
  apply (BM25_retrieve_returns_key Demo.cut_chars Demo.overlap_argsort
           (lit "dividend") [1%Z; 3%Z] Demo.finance_corpus 3%Z).
  vm_compute. reflexivity.
Defined.

(** X6 at the twin ids: id 1 comes back for the candidate 2, whose
    text it shares. *)
Lemma BM25_retrieve_text_of_candidate_witness :
  exists f t,
    In f [2%Z] /\ dict_lookup Demo.twins f = Some t /\
    blank t = false /\ dict_lookup Demo.twins 1 = Some t.
Proof.
  apply (BM25_retrieve_text_of_candidate Demo.cut_chars Demo.overlap_argsort
           DemoFacts.overlap_argsort_perm (lit "premium") [2%Z]
           Demo.twins 1%Z).
  - unfold dict_wf. simpl. constructor.
    + intros [H|[]]. discriminate.
    + constructor; [intros [] | constructor].
  - vm_compute. reflexivity.
Defined.

Lemma finance_corpus_texts_differ (k1 k2 : Z) (t : str) :
  In (k1, t) Demo.finance_corpus -> In (k2, t) Demo.finance_corpus ->
  blank t = false -> k1 = k2.
Proof.
  intros H1 H2 Hb.
  destruct H1 as [H1|[H1|[H1|[]]]]; destruct H2 as [H2|[H2|[H2|[]]]];
    pose proof (f_equal fst H1) as K1; pose proof (f_equal snd H1) as T1;
    pose proof (f_equal fst H2) as K2; pose proof (f_equal snd H2) as T2;
    simpl in K1, K2, T1, T2; subst k1 k2; try reflexivity;
    exfalso; rewrite <- T2 in T1; vm_compute in T1; discriminate.
Qed.

(** X7 at the finance corpus, whose texts differ. *)
Lemma BM25_retrieve_candidate_when_texts_differ_witness :
  In 3%Z [1%Z; 3%Z].
Proof.
  apply (BM25_retrieve_candidate_when_texts_differ Demo.cut_chars
           Demo.overlap_argsort DemoFacts.overlap_argsort_perm
           (lit "dividend") [1%Z; 3%Z] Demo.finance_corpus 3%Z).
  - exact finance_corpus_texts_differ.
  - vm_compute. reflexivity.
Defined.

(** X9 at the finance corpus with candidates 3, 2 and 5, of which only
    3 counts. *)
Lemma BM25_retrieve_single_text_witness :
  (exists r before after,
     BM25_retrieve Demo.cut_chars Demo.overlap_argsort (lit "revenue")
                   [3%Z; 2%Z; 5%Z] Demo.finance_corpus = Some r /\
     dict_items Demo.finance_corpus
       = before ++ (r, lit "annual report dividend") :: after /\
     forall kv, In kv before -> snd kv <> lit "annual report dividend") /\
  forall qs',
    BM25_retrieve Demo.cut_chars Demo.overlap_argsort qs'
                  [3%Z; 2%Z; 5%Z] Demo.finance_corpus
    = BM25_retrieve Demo.cut_chars Demo.overlap_argsort (lit "revenue")
                    [3%Z; 2%Z; 5%Z] Demo.finance_corpus.
Proof.
  apply (BM25_retrieve_single_text Demo.cut_chars Demo.overlap_argsort
           DemoFacts.overlap_argsort_perm (lit "revenue") [3%Z; 2%Z; 5%Z]
           Demo.finance_corpus (lit "annual report dividend")).
  - vm_compute. discriminate.
  - intros x [<-|[]]. reflexivity.
Defined.

(** X11 at questions.json. *)
Lemma main_answers_sound_witness :
  exists answers,
    main (fun v : str => v) Demo.int_ascii Demo.cut_chars
         Demo.overlap_argsort Demo.fs (lit "questions.json")
         (lit "./reference") = Returns (Some answers) /\
    forall a, In a answers ->
      exists q d,
        In q [Demo.q_finance; Demo.q_insurance; Demo.q_law; Demo.q_faq] /\
        answer_qid a = qid q /\
        category_corpus (fun v : str => v)
          (loaded Demo.int_ascii Demo.fs
                  (path_join (lit "./reference") (lit "insurance")))
          (loaded Demo.int_ascii Demo.fs
                  (path_join (lit "./reference") (lit "finance")))
          Demo.faq_dict q = Some d /\
        In (retrieve a) (dict_keys d).
Proof.
  apply (main_answers_sound str (fun v : str => v) Demo.int_ascii
           Demo.cut_chars Demo.overlap_argsort Demo.fs
           (lit "questions.json") (lit "./reference")).
  - reflexivity.
  - vm_compute. reflexivity.
Defined.

(** X12 at questions.json: questions 1 and 4 can be answered. *)
Lemma main_answers_the_answerable_witness :
  exists answers,
    main (fun v : str => v) Demo.int_ascii Demo.cut_chars
         Demo.overlap_argsort Demo.fs (lit "questions.json")
         (lit "./reference") = Returns (Some answers) /\
    map answer_qid answers = [1%Z; 4%Z].
Proof.
  destruct (main_answers_the_answerable str (fun v : str => v)
              Demo.int_ascii Demo.cut_chars Demo.overlap_argsort
              DemoFacts.overlap_argsort_perm Demo.fs (lit "questions.json")
              (lit "./reference")
              [Demo.q_finance; Demo.q_insurance; Demo.q_law; Demo.q_faq]
              Demo.faq_dict)
    as [answers [Hrun Hq]].
  - reflexivity.
  - vm_compute. reflexivity.
  - exists answers. split; [exact Hrun|].
    rewrite Hq. vm_compute. reflexivity.
Defined.

(** X13 at questions.json, whose qids are 1, 2, 3, 4. *)
Lemma main_answers_distinct_qids_witness :
  NoDup (map answer_qid [ {| answer_qid := 1; retrieve := 3 |};
                          {| answer_qid := 4; retrieve := 7 |} ]).
Proof.
  apply (main_answers_distinct_qids str (fun v : str => v) Demo.int_ascii
           Demo.cut_chars Demo.overlap_argsort Demo.fs
           (lit "questions.json") (lit "./reference")
           [Demo.q_finance; Demo.q_insurance; Demo.q_law; Demo.q_faq]).
  - reflexivity.
  - simpl. repeat constructor; simpl; intuition discriminate.
  - vm_compute. reflexivity.
Defined.


(** X15 in the same world, which has no FAQ file. *)
Lemma main_missing_faq_file_witness :
  main (fun v : str => v) Demo.int_ascii Demo.cut_chars Demo.overlap_argsort
       Demo2.fs_locked (lit "questions.json") (lit "./reference")
  = Returns (Some
      (answer_loop (fun v : str => v) Demo.cut_chars Demo.overlap_argsort
         (loaded Demo.int_ascii Demo2.fs_locked
                 (path_join (lit "./reference") (lit "insurance")))
         (loaded Demo.int_ascii Demo2.fs_locked
                 (path_join (lit "./reference") (lit "finance")))
         dict_empty
         (filter (fun q => negb (in_category "faq" q))
                 [Demo.q_finance; Demo.q_insurance; Demo.q_law;
                  Demo.q_faq]))).
Proof.
  apply (main_missing_faq_file str (fun v : str => v) Demo.int_ascii
           Demo.cut_chars Demo.overlap_argsort Demo2.fs_locked
           (lit "questions.json") (lit "./reference")).
  - reflexivity.
  - reflexivity.
Defined.

(** X16 at ./data/output/answers.json on an empty tree. *)
Lemma ensure_dir_exists_of_join_witness :
  ensure_dir_exists Demo2.dirs []
    (path_join (lit "./data/output") (lit "answers.json"))
  = Returns [lit "./data/output"].
Proof.
  rewrite (ensure_dir_exists_of_join (list str) Demo2.dirs []
             (lit "./data/output") (lit "answers.json")).
  - reflexivity.
  - discriminate.
  - reflexivity.
  - vm_compute. intuition discriminate.
Defined.

(** X17 at the bare name answers.json. *)
Lemma ensure_dir_exists_bare_name_witness :
  ensure_dir_exists Demo2.dirs [] (lit "answers.json")
  = Raises FileNotFoundError.
Proof.
  apply (ensure_dir_exists_bare_name (list str) Demo2.dirs []
           (lit "answers.json") FileNotFoundError).
  - vm_compute. intuition discriminate.
  - reflexivity.
  - reflexivity.
Defined.

Lemma dirs_makedirs_exists (s : list str) (d : str) (s' : list str) :
  makedirs Demo2.dirs s d = Returns s' -> path_exists Demo2.dirs s' d = true.
Proof.
  simpl. destruct (truthy d); [|discriminate].
  intros [= <-]. simpl. now rewrite str_eqb_refl.
Qed.

(** X18 at ./data/output/answers.json. *)
Lemma ensure_dir_exists_twice_witness :
  ensure_dir_exists Demo2.dirs [lit "./data/output"]
    (lit "./data/output/answers.json")
  = Returns [lit "./data/output"].
Proof.
  apply (ensure_dir_exists_twice (list str) Demo2.dirs []
           [lit "./data/output"] (lit "./data/output/answers.json")).
  - exact dirs_makedirs_exists.
  - vm_compute. reflexivity.
Defined.
